(** * Anubis web client: boundary validation, stream-event reducer,
      priority picker and priority weights

    A shallow embedding of the TypeScript sources of the web application
    ([apps/web]) together with theorems about them.

    Conventions of the embedding:
    - a JavaScript string is a [string] whose characters stand for its code
      units; its [length] is [String.length];
    - a finite JavaScript [number] is a rational [Qc] (every finite double is
      one, and the constants compared against, 8, 6.5 and 5, are exact); the
      floats of the weight calculator, on which arithmetic is done, are
      binary64 numbers ([float]);
    - the [results] object is read as the code reads it, through its
      prototype chain: its own properties are kept in [gmap]s, next to a
      flag that tells whether its prototype was replaced; the [fieldErrors]
      record, which is only read under names no object inherits, is a
      [gmap] read by own-property lookup;
    - an object whose key order is observed ([Object.entries]) is an
      association list in insertion order;
    - React state is threaded explicitly: a functional updater passed to a
      setter is applied to the current value of that piece of state. *)

From Stdlib Require Import PrimFloat.
From Stdlib Require Import Ascii String QArith Qcanon.
From stdpp Require Import gmap strings list fin_maps pretty.

Local Open Scope string_scope.
Local Open Scope list_scope.

Set Warnings "-register-all".

(** ** lib/consts.ts *)

Module Consts.

Record Option := { value : string; label : string }.

(** The current table of selectable models (an earlier revision of the file
    lists four of them; nothing proved below depends on the contents of the
    tables beyond the identifiers used in the examples and the number of
    metrics). *)
Definition MODELS : list Option :=
  [ {| value := "gemini-2.5-pro-latest"; label := "Gemini 2.5 Pro Latest" |};
    {| value := "gemini-2.5-pro"; label := "Gemini 2.5 Pro" |};
    {| value := "gemini-2.5-flash"; label := "Gemini 2.5 Flash" |};
    {| value := "gemini-2.5-flash-lite"; label := "Gemini 2.5 Flash Lite" |};
    {| value := "gemma-3-1b-it"; label := "Gemma 3 1B" |};
    {| value := "gemini-2.0-flash-lite"; label := "Gemini 2.0 Flash Lite" |};
    {| value := "gemini-2.0-flash-thinking-exp";
       label := "Gemini 2.0 Flash Thinking Exp" |};
    {| value := "learnlm-2.0-flash-experimental";
       label := "LearnLM 2.0 Flash Exp" |} ].

Definition METRICS : list Option :=
  [ {| value := "time_complexity"; label := "Time Complexity" |};
    {| value := "readability"; label := "Readability" |};
    {| value := "consistency"; label := "Consistency" |};
    {| value := "code_documentation"; label := "Code Documentation" |};
    {| value := "external_dependencies"; label := "External Dependencies" |} ].

End Consts.

(** ** components/ordered-checkbox-group.tsx *)

Module OrderedCheckboxGroup.

(** [TValue extends string]. *)
Definition TValue := string.

Record Props := { controlledValues : option (list TValue) }.

(** [const isControlled = controlledValues !== undefined]. *)
Definition isControlled (p : Props) : bool :=
  match controlledValues p with Some _ => true | None => false end.

(** [const selectedValues = isControlled ? controlledValues : internalValues]. *)
Definition selectedValues (p : Props) (internalValues : list TValue)
  : list TValue :=
  match controlledValues p with Some c => c | None => internalValues end.

(** The local [newValues] of [handleToggle]: [includes] and [!==] on
    strings are equality tests. *)
Definition newValues (selected : list TValue) (value : TValue) : list TValue :=
  if bool_decide (value ∈ selected)
  then filter (λ v, v ≠ value) selected
  else selected ++ [value].

(** What one call of [handleToggle] does: the next [internalValues] and the
    argument handed to [onChange]. *)
Record ToggleOutcome :=
  { internalValues' : list TValue; onChangeArg : list TValue }.

Definition handleToggle (p : Props) (internalValues : list TValue)
    (value : TValue) : ToggleOutcome :=
  let nv := newValues (selectedValues p internalValues) value in
  {| internalValues' := if isControlled p then internalValues else nv;
     onChangeArg := nv |}.

(** [getOrderNumber]: 1-based position, [null] when absent. *)
Fixpoint indexOf (l : list TValue) (value : TValue) : option nat :=
  match l with
  | [] => None
  | x :: l' => if decide (x = value) then Some 0 else S <$> indexOf l' value
  end.

Definition getOrderNumber (selected : list TValue) (value : TValue)
  : option nat :=
  (λ index, index + 1) <$> indexOf selected value.

End OrderedCheckboxGroup.

(** ** lib/types.ts *)

(** [Model] and [Metric] are unions of string literals; at run time they are
    strings. *)
Definition Model := string.
Definition Metric := string.

(** A finite JavaScript number. *)
Definition number := Qc.

Module ModelStatus.
Inductive t := pending | processing | complete | error.
End ModelStatus.

(** One value of [EvaluationMetrics]: [{ score: number; notes: string }]. *)
Record MetricValue := { score : number; notes : string }.

(** [Record<Metric, { score; notes }>], in property (insertion) order, which
    is the order [Object.entries] enumerates. *)
Definition EvaluationMetrics := list (Metric * MetricValue).

Module ModelResult.
Record t := {
  model : Model;
  status : ModelStatus.t;
  code : string;
  executionTime : option number;
  overallScore : option number;
  metrics : option EvaluationMetrics;
  pros : option (list string);
  cons : option (list string);
  error : option string
}.
End ModelResult.

Record Recommendation := {
  bestModel : Model;
  bestScore : number;
  recommendedCode : string;
  potentialIssues : string
}.

Module Warning.
Inductive kind := model_warning | code_quality.
Record t := {
  id : string;
  type : kind;
  message : string;
  model : option Model
}.
End Warning.

Record SummaryData := {
  total_models_tested : number;
  successful_evaluations : number;
  failed_evaluations : number;
  best_model : Model;
  best_score : number;
  best_generated_code : string;
  potential_issues : string
}.

Record RankingEntry := { rank : number; ranked_model : Model; ranked_score : number }.

Record Notes := { notes_pros : list string; notes_cons : list string }.

Module StreamEvent.
Inductive t :=
| generation_start (model : Model)
| code_chunk (model : Model) (chunk : string)
| generation_complete (model : Model) (success : bool)
    (execution_time_ms : number)
| evaluation_result (model : Model) (overall_score : number)
    (metrics : EvaluationMetrics) (notes : Notes)
| summary (data : SummaryData) (ranking : list RankingEntry)
| complete
| error (message : string) (model : option Model).
End StreamEvent.

(** ** app/results/page.tsx *)

Module ResultsPage.

(** An own entry of the results object that is not a [ModelResult]: it was
    built by spreading a value found on the prototype chain, so it has only
    the index properties of that value, if it was a string ([spread]), and
    the fields the handlers have written since. *)
Module PartialResult.
Record t := {
  spread : string;
  status : option ModelStatus.t;
  code : option string;
  executionTime : option number;
  overallScore : option number;
  metrics : option EvaluationMetrics;
  pros : option (list string);
  cons : option (list string);
  error : option string
}.
End PartialResult.

(** The object held in the [results] state.  Its own properties are the
    [ModelResult] entries ([entries]) and the partial entries ([partials]).
    Its prototype is [Object.prototype], unless the first effect assigned
    under the name ["__proto__"], which makes the assigned pending entry the
    prototype ([prototypeReplaced]); an object built by a spread has
    [Object.prototype] again. *)
Record ResultsObject := {
  entries : gmap Model ModelResult.t;
  partials : gmap string PartialResult.t;
  prototypeReplaced : bool
}.

(** The pieces of React state of [ResultsPage]; [results], [strays] and
    [protoReplaced] together are the [results] object. *)
Record State := {
  results : gmap Model ModelResult.t;
  strays : gmap string PartialResult.t;
  protoReplaced : bool;
  recommendation : option Recommendation;
  warnings : list Warning.t;
  isComplete : bool;
  error : option string
}.

Definition resultsObject (st : State) : ResultsObject :=
  {| entries := results st; partials := strays st;
     prototypeReplaced := protoReplaced st |}.

(** [{ model, status: "pending", code: "" }]. *)
Definition pendingEntry (m : Model) : ModelResult.t :=
  {| ModelResult.model := m;
     ModelResult.status := ModelStatus.pending;
     ModelResult.code := "";
     ModelResult.executionTime := None;
     ModelResult.overallScore := None;
     ModelResult.metrics := None;
     ModelResult.pros := None;
     ModelResult.cons := None;
     ModelResult.error := None |}.

(** The property names of [Object.prototype]. *)
Definition objectPrototypeNames : list string :=
  [ "constructor"; "__defineGetter__"; "__defineSetter__"; "hasOwnProperty";
    "__lookupGetter__"; "__lookupSetter__"; "isPrototypeOf";
    "propertyIsEnumerable"; "toString"; "valueOf"; "__proto__";
    "toLocaleString" ].

(** What [prev[key]] can be when it is truthy: a [ModelResult], a partial
    entry, or a value that is no entry: a function or the prototype object
    ([text] empty) or a non-empty string ([text]); spreading the latter
    copies the characters of [text] as index properties and nothing else. *)
Inductive Found :=
| FoundResult (r : ModelResult.t)
| FoundPartial (p : PartialResult.t)
| FoundOther (text : string).

(** A property that is not an own property, looked up on the prototype
    chain.  With the prototype replaced, the chain starts at the pending
    entry assigned under ["__proto__"]: its [model] is ["__proto__"], its
    [status] is ["pending"], its [code] is the empty string (falsy), and the
    accessor [__proto__] returns that entry itself.  Every member of
    [Object.prototype] is a function, except that [__proto__] yields the
    prototype object. *)
Definition inherited (replaced : bool) (key : string) : option Found :=
  if replaced then
    if decide (key = "__proto__") then
      Some (FoundResult (pendingEntry "__proto__"))
    else if decide (key = "model") then Some (FoundOther "__proto__")
    else if decide (key = "status") then Some (FoundOther "pending")
    else if decide (key = "code") then None
    else if bool_decide (key ∈ objectPrototypeNames) then Some (FoundOther "")
    else None
  else if bool_decide (key ∈ objectPrototypeNames) then Some (FoundOther "")
  else None.

(** [const currentResult = prev[key]], [None] when [!currentResult]. *)
Definition currentResult (prev : ResultsObject) (key : string) : option Found :=
  match entries prev !! key with
  | Some r => Some (FoundResult r)
  | None =>
      match partials prev !! key with
      | Some p => Some (FoundPartial p)
      | None => inherited (prototypeReplaced prev) key
      end
  end.

(** [key.replace(/_/g, " ")]: every underscore becomes a space. *)
Fixpoint replaceUnderscores (key : string) : string :=
  match key with
  | EmptyString => EmptyString
  | String c rest =>
      String (if Ascii.eqb c "_"%char then " "%char else c)
             (replaceUnderscores rest)
  end.

(** [if (event.model)]: a string is truthy unless it is empty; an absent
    field is [undefined]. *)
Definition truthy (model : option Model) : option Model :=
  match model with
  | Some m => if decide (m = "") then None else Some m
  | None => None
  end.

Section WithNumberToString.

(** JavaScript's [Number::toString], used by template literals. *)
Variable numberToString : number → string.

(** The body of the [forEach] callback of [generateProsAndCons], acting on
    the two arrays [pros] and [cons]; each template literal is written out
    as the concatenation it denotes. *)
Definition classify (acc : list string * list string)
    (entry : Metric * MetricValue) : list string * list string :=
  let '(pros_, cons_) := acc in
  let '(key, value) := entry in
  let metricName := replaceUnderscores key in
  if bool_decide (Q2Qc 8 ≤ score value)%Qc then
    (pros_ ++ ["Excellent " +:+ metricName +:+ " (" +:+
               numberToString (score value) +:+ "/10): " +:+ notes value],
     cons_)
  else if bool_decide (Q2Qc 6.5 ≤ score value)%Qc then
    (pros_ ++ ["Good " +:+ metricName +:+ " (" +:+
               numberToString (score value) +:+ "/10): " +:+ notes value],
     cons_)
  else if bool_decide (Q2Qc 5 ≤ score value)%Qc then
    (pros_,
     cons_ ++ ["Moderate " +:+ metricName +:+ " (" +:+
               numberToString (score value) +:+ "/10): " +:+ notes value])
  else
    (pros_,
     cons_ ++ ["Poor " +:+ metricName +:+ " (" +:+
               numberToString (score value) +:+ "/10): " +:+ notes value]).

Definition generateProsAndCons (metrics : EvaluationMetrics)
  : list string * list string :=
  foldl classify ([], []) metrics.

(** The object-spread updates of one [ModelResult]. *)
Definition withStatus (r : ModelResult.t) (s : ModelStatus.t) : ModelResult.t :=
  {| ModelResult.model := ModelResult.model r;
     ModelResult.status := s;
     ModelResult.code := ModelResult.code r;
     ModelResult.executionTime := ModelResult.executionTime r;
     ModelResult.overallScore := ModelResult.overallScore r;
     ModelResult.metrics := ModelResult.metrics r;
     ModelResult.pros := ModelResult.pros r;
     ModelResult.cons := ModelResult.cons r;
     ModelResult.error := ModelResult.error r |}.

Definition withCode (r : ModelResult.t) (c : string) : ModelResult.t :=
  {| ModelResult.model := ModelResult.model r;
     ModelResult.status := ModelResult.status r;
     ModelResult.code := c;
     ModelResult.executionTime := ModelResult.executionTime r;
     ModelResult.overallScore := ModelResult.overallScore r;
     ModelResult.metrics := ModelResult.metrics r;
     ModelResult.pros := ModelResult.pros r;
     ModelResult.cons := ModelResult.cons r;
     ModelResult.error := ModelResult.error r |}.

Definition withCompletion (r : ModelResult.t) (s : ModelStatus.t)
    (t : number) (e : option string) : ModelResult.t :=
  {| ModelResult.model := ModelResult.model r;
     ModelResult.status := s;
     ModelResult.code := ModelResult.code r;
     ModelResult.executionTime := Some t;
     ModelResult.overallScore := ModelResult.overallScore r;
     ModelResult.metrics := ModelResult.metrics r;
     ModelResult.pros := ModelResult.pros r;
     ModelResult.cons := ModelResult.cons r;
     ModelResult.error := e |}.

Definition withEvaluation (r : ModelResult.t) (overall : number)
    (ms : EvaluationMetrics) (ps cs : list string) : ModelResult.t :=
  {| ModelResult.model := ModelResult.model r;
     ModelResult.status := ModelResult.status r;
     ModelResult.code := ModelResult.code r;
     ModelResult.executionTime := ModelResult.executionTime r;
     ModelResult.overallScore := Some overall;
     ModelResult.metrics := Some ms;
     ModelResult.pros := Some ps;
     ModelResult.cons := Some cs;
     ModelResult.error := ModelResult.error r |}.

Definition withError (r : ModelResult.t) (msg : string) : ModelResult.t :=
  {| ModelResult.model := ModelResult.model r;
     ModelResult.status := ModelStatus.error;
     ModelResult.code := ModelResult.code r;
     ModelResult.executionTime := ModelResult.executionTime r;
     ModelResult.overallScore := ModelResult.overallScore r;
     ModelResult.metrics := ModelResult.metrics r;
     ModelResult.pros := ModelResult.pros r;
     ModelResult.cons := ModelResult.cons r;
     ModelResult.error := Some msg |}.

(** The same object-spread updates on a partial entry.  A missing [code]
    reads as [undefined], which [+] turns into the text ["undefined"]. *)
Definition partialOf (found : string + PartialResult.t) : PartialResult.t :=
  match found with
  | inl text =>
      {| PartialResult.spread := text;
         PartialResult.status := None;
         PartialResult.code := None;
         PartialResult.executionTime := None;
         PartialResult.overallScore := None;
         PartialResult.metrics := None;
         PartialResult.pros := None;
         PartialResult.cons := None;
         PartialResult.error := None |}
  | inr p => p
  end.

Definition partialWithStatus (p : PartialResult.t) (s : ModelStatus.t)
  : PartialResult.t :=
  {| PartialResult.spread := PartialResult.spread p;
     PartialResult.status := Some s;
     PartialResult.code := PartialResult.code p;
     PartialResult.executionTime := PartialResult.executionTime p;
     PartialResult.overallScore := PartialResult.overallScore p;
     PartialResult.metrics := PartialResult.metrics p;
     PartialResult.pros := PartialResult.pros p;
     PartialResult.cons := PartialResult.cons p;
     PartialResult.error := PartialResult.error p |}.

Definition partialWithChunk (p : PartialResult.t) (chunk : string)
  : PartialResult.t :=
  {| PartialResult.spread := PartialResult.spread p;
     PartialResult.status := PartialResult.status p;
     PartialResult.code :=
       Some (default "undefined" (PartialResult.code p) +:+ chunk);
     PartialResult.executionTime := PartialResult.executionTime p;
     PartialResult.overallScore := PartialResult.overallScore p;
     PartialResult.metrics := PartialResult.metrics p;
     PartialResult.pros := PartialResult.pros p;
     PartialResult.cons := PartialResult.cons p;
     PartialResult.error := PartialResult.error p |}.

Definition partialWithCompletion (p : PartialResult.t) (s : ModelStatus.t)
    (t : number) (e : option string) : PartialResult.t :=
  {| PartialResult.spread := PartialResult.spread p;
     PartialResult.status := Some s;
     PartialResult.code := PartialResult.code p;
     PartialResult.executionTime := Some t;
     PartialResult.overallScore := PartialResult.overallScore p;
     PartialResult.metrics := PartialResult.metrics p;
     PartialResult.pros := PartialResult.pros p;
     PartialResult.cons := PartialResult.cons p;
     PartialResult.error := e |}.

Definition partialWithEvaluation (p : PartialResult.t) (overall : number)
    (ms : EvaluationMetrics) (ps cs : list string) : PartialResult.t :=
  {| PartialResult.spread := PartialResult.spread p;
     PartialResult.status := PartialResult.status p;
     PartialResult.code := PartialResult.code p;
     PartialResult.executionTime := PartialResult.executionTime p;
     PartialResult.overallScore := Some overall;
     PartialResult.metrics := Some ms;
     PartialResult.pros := Some ps;
     PartialResult.cons := Some cs;
     PartialResult.error := PartialResult.error p |}.

Definition partialWithError (p : PartialResult.t) (msg : string)
  : PartialResult.t :=
  {| PartialResult.spread := PartialResult.spread p;
     PartialResult.status := Some ModelStatus.error;
     PartialResult.code := PartialResult.code p;
     PartialResult.executionTime := PartialResult.executionTime p;
     PartialResult.overallScore := PartialResult.overallScore p;
     PartialResult.metrics := PartialResult.metrics p;
     PartialResult.pros := PartialResult.pros p;
     PartialResult.cons := PartialResult.cons p;
     PartialResult.error := Some msg |}.

(** The shape shared by every updater handed to [setResults]:
    [const currentResult = prev[m]; if (!currentResult) return prev;
     return { ...prev, [m]: { ...currentResult, fields } }].
    [f] writes the fields into a [ModelResult], [g] into a partial entry;
    the computed key makes the new entry an own property, also for
    ["__proto__"], and the spread copies the own properties of [prev] into
    an object with the ordinary prototype. *)
Definition updateResult (m : Model) (f : ModelResult.t → ModelResult.t)
    (g : PartialResult.t → PartialResult.t) (prev : ResultsObject)
  : ResultsObject :=
  match currentResult prev m with
  | None => prev
  | Some (FoundResult r) =>
      {| entries := <[m := f r]> (entries prev);
         partials := partials prev;
         prototypeReplaced := false |}
  | Some (FoundPartial p) =>
      {| entries := entries prev;
         partials := <[m := g p]> (partials prev);
         prototypeReplaced := false |}
  | Some (FoundOther text) =>
      {| entries := entries prev;
         partials := <[m := g (partialOf (inl text))]> (partials prev);
         prototypeReplaced := false |}
  end.

Definition setResults (f : ResultsObject → ResultsObject) (st : State)
  : State :=
  {| results := entries (f (resultsObject st));
     strays := partials (f (resultsObject st));
     protoReplaced := prototypeReplaced (f (resultsObject st));
     recommendation := recommendation st;
     warnings := warnings st; isComplete := isComplete st;
     error := error st |}.

Definition setRecommendation (r : Recommendation) (st : State) : State :=
  {| results := results st; strays := strays st;
     protoReplaced := protoReplaced st; recommendation := Some r;
     warnings := warnings st; isComplete := isComplete st;
     error := error st |}.

Definition setWarnings (f : list Warning.t → list Warning.t) (st : State)
  : State :=
  {| results := results st; strays := strays st;
     protoReplaced := protoReplaced st;
     recommendation := recommendation st;
     warnings := f (warnings st); isComplete := isComplete st;
     error := error st |}.

Definition setIsComplete (b : bool) (st : State) : State :=
  {| results := results st; strays := strays st;
     protoReplaced := protoReplaced st;
     recommendation := recommendation st;
     warnings := warnings st; isComplete := b; error := error st |}.

Definition setError (msg : string) (st : State) : State :=
  {| results := results st; strays := strays st;
     protoReplaced := protoReplaced st;
     recommendation := recommendation st;
     warnings := warnings st; isComplete := isComplete st;
     error := Some msg |}.

(** [handleStreamEvent]; [now] is the value [Date.now()] returns during
    the call. *)
Definition handleStreamEvent (now : number) (event : StreamEvent.t)
    (st : State) : State :=
  match event with
  | StreamEvent.generation_start m =>
      setResults
        (updateResult m
           (λ cur, withStatus cur ModelStatus.processing)
           (λ cur, partialWithStatus cur ModelStatus.processing)) st
  | StreamEvent.code_chunk m chunk =>
      setResults
        (updateResult m
           (λ cur, withCode cur (ModelResult.code cur +:+ chunk))
           (λ cur, partialWithChunk cur chunk))
        st
  | StreamEvent.generation_complete m success execution_time_ms =>
      setResults
        (updateResult m
           (λ cur,
              withCompletion cur
                (if success then ModelStatus.complete else ModelStatus.error)
                execution_time_ms
                (if success then None else Some "Generation failed"))
           (λ cur,
              partialWithCompletion cur
                (if success then ModelStatus.complete else ModelStatus.error)
                execution_time_ms
                (if success then None else Some "Generation failed")))
        st
  | StreamEvent.evaluation_result m overall_score ms _ =>
      setResults
        (updateResult m
           (λ cur,
              let '(ps, cs) := generateProsAndCons ms in
              withEvaluation cur overall_score ms ps cs)
           (λ cur,
              let '(ps, cs) := generateProsAndCons ms in
              partialWithEvaluation cur overall_score ms ps cs))
        st
  | StreamEvent.summary data _ =>
      setRecommendation
        {| bestModel := best_model data;
           bestScore := best_score data;
           recommendedCode := best_generated_code data;
           potentialIssues := potential_issues data |} st
  | StreamEvent.error msg model =>
      match truthy model with
      | Some errorModel =>
          setWarnings
            (λ prev, prev ++
               [ {| Warning.id :=
                      "error-" +:+ errorModel +:+ "-" +:+ numberToString now;
                    Warning.type := Warning.model_warning;
                    Warning.message := msg;
                    Warning.model := Some errorModel |} ])
            (setResults
               (updateResult errorModel (λ cur, withError cur msg)
                  (λ cur, partialWithError cur msg)) st)
      | None => setError msg st
      end
  | StreamEvent.complete => setIsComplete true st
  end.

(** Processing a sequence of events, each with its own clock reading. *)
Definition handleStreamEvents (events : list (number * StreamEvent.t))
    (st : State) : State :=
  foldl (λ s e, handleStreamEvent e.1 e.2 s) st events.

End WithNumberToString.

(** The first effect of the page, [initialResults[model] = pending entry] for
    each requested model in turn, on the empty object.  The assignment makes
    an own property, a later duplicate overwriting an earlier one, except
    under the name ["__proto__"], where it makes the assigned entry the
    prototype of the object and no own property. *)
Definition initialResults (models : list Model) : ResultsObject :=
  foldl (λ acc m,
    if decide (m = "__proto__") then
      {| entries := entries acc; partials := partials acc;
         prototypeReplaced := true |}
    else
      {| entries := <[m := pendingEntry m]> (entries acc);
         partials := partials acc;
         prototypeReplaced := prototypeReplaced acc |})
    {| entries := ∅; partials := ∅; prototypeReplaced := false |} models.

Definition initialState (models : list Model) : State :=
  {| results := entries (initialResults models);
     strays := partials (initialResults models);
     protoReplaced := prototypeReplaced (initialResults models);
     recommendation := None;
     warnings := []; isComplete := false; error := None |}.

End ResultsPage.

(** ** The part of the zod library that [lib/api.ts] uses

    zod is a dependency, not part of the repository; its runtime behaviour is
    transcribed here for the four schema constructors the request schema is
    built from. *)

Module Zod.

(** Values a schema can be handed ([unknown]). *)
Inductive JsValue :=
| JsUndefined
| JsNull
| JsBoolean (b : bool)
| JsNumber (n : Qc)
| JsString (s : string)
| JsArray (items : list JsValue)
| JsObject (fields : list (string * JsValue)).

(** [data[key]] on an object given by its own properties: the value of the
    first binding of [key], [undefined] when there is none. *)
Fixpoint getField (key : string) (fields : list (string * JsValue)) : JsValue :=
  match fields with
  | [] => JsUndefined
  | (k, v) :: rest => if decide (k = key) then v else getField key rest
  end.

Inductive ZodIssueCode := invalid_type | too_small | invalid_enum_value.

Inductive PathSegment := key (k : string) | index (i : nat).

Record ZodIssue := {
  code : ZodIssueCode;
  path : list PathSegment;
  message : string
}.

(** [z.string()] with an optional [.min(n, message)], [z.enum(values)],
    [z.array(element)], [z.object(shape)]. *)
Inductive ZodType :=
| ZodString (minCheck : option (nat * string))
| ZodEnum (values : list string)
| ZodArray (element : ZodType)
| ZodObject (shape : list (string * ZodType)).

(** The elements of an array are parsed left to right, element [i] under the
    path extended with [i]. *)
Fixpoint parseItems (parseItem : nat → JsValue → list ZodIssue) (i : nat)
    (items : list JsValue) : list ZodIssue :=
  match items with
  | [] => []
  | x :: rest => parseItem i x ++ parseItems parseItem (S i) rest
  end.

Record SafeParseReturnType := {
  success : bool;
  issues : list ZodIssue
}.

Section WithErrorMap.

(** The error map in force: the message of an issue that carries no message
    of its own, from the issue code and the value received. *)
Variable errorMap : ZodIssueCode → JsValue → string.

Definition invalidType (p : list PathSegment) (input : JsValue) : list ZodIssue :=
  [ {| code := invalid_type; path := p; message := errorMap invalid_type input |} ].

(** The issues a schema raises on an input, in the order zod reports them. *)
Fixpoint _parse (schema : ZodType) (p : list PathSegment) (input : JsValue)
    {struct schema} : list ZodIssue :=
  match schema with
  | ZodString minCheck =>
      match input with
      | JsString s =>
          match minCheck with
          | Some (n, msg) =>
              if (String.length s <? n)%nat
              then [ {| code := too_small; path := p; message := msg |} ]
              else []
          | None => []
          end
      | _ => invalidType p input
      end
  | ZodEnum values =>
      match input with
      | JsString s =>
          if bool_decide (s ∈ values) then []
          else [ {| code := invalid_enum_value; path := p;
                    message := errorMap invalid_enum_value input |} ]
      | _ => invalidType p input
      end
  | ZodArray element =>
      match input with
      | JsArray items =>
          parseItems (λ i x, _parse element (p ++ [index i]) x) 0 items
      | _ => invalidType p input
      end
  | ZodObject shape =>
      match input with
      | JsObject fields =>
          (fix parseShape (shape : list (string * ZodType)) : list ZodIssue :=
             match shape with
             | [] => []
             | (k, fieldSchema) :: rest =>
                 _parse fieldSchema (p ++ [key k]) (getField k fields)
                 ++ parseShape rest
             end) shape
      | _ => invalidType p input
      end
  end.

(** [schema.safeParse(data)]: success exactly when no issue was raised.  The
    parsed data of a success is not represented. *)
Definition safeParse (schema : ZodType) (data : JsValue) : SafeParseReturnType :=
  let found := _parse schema [] data in
  {| success := match found with [] => true | _ => false end;
     issues := found |}.

End WithErrorMap.

(** The message zod falls back to when the error map gives none. *)
Definition fallbackErrorMap (_ : ZodIssueCode) (_ : JsValue) : string :=
  "Invalid input".

End Zod.

(** ** lib/api.ts *)

Module Api.
Import Zod.

Definition modelValues : list string := Consts.value <$> Consts.MODELS.
Definition metricValues : list string := Consts.value <$> Consts.METRICS.

Definition promptMessage : string :=
  "The prompt needs to be at least 5 characters long".

Definition evaluateRequest : ZodType :=
  ZodObject
    [ ("prompt", ZodString (Some (5, promptMessage)));
      ("models", ZodArray (ZodEnum modelValues));
      ("metrics", ZodArray (ZodEnum metricValues)) ].

(** [err.path.join(".")]. *)
Definition segmentText (seg : PathSegment) : string :=
  match seg with
  | key k => k
  | index i => pretty i
  end.

Fixpoint joinPath (p : list PathSegment) : string :=
  match p with
  | [] => ""
  | [seg] => segmentText seg
  | seg :: rest => segmentText seg +:+ "." +:+ joinPath rest
  end.

(** The [fieldErrors] record [handleSubmit] builds from the issues of a
    failed parse: a later issue on the same path overwrites an earlier one. *)
Definition fieldErrors (found : list ZodIssue) : gmap string string :=
  foldl (λ acc err, <[joinPath (path err) := message err]> acc) ∅ found.

End Api.

(** ** The Weight Calculator

    The calculator lives in the Python backend, whose code is not part of the
    sources at hand; it is written down here from its specification.  Its
    numbers are floats, that is binary64 numbers, and every operation on
    them rounds to nearest. *)

Module WeightCalculator.

Inductive WeightError :=
| ValidationError (offending : Metric)
| ConfigError.

Inductive Result (A : Type) :=
| Ok (value : A)
| Err (error : WeightError).
Arguments Ok {A} value.
Arguments Err {A} error.

(** Modelled from the spec: the MetricWeightMap, a mapping from metric
    identifier to weight, kept in priority order. *)
Definition MetricWeightMap := list (Metric * float).

(** Modelled from the spec: the sum of a list of weights, added up from the
    left. *)
Definition sumWeights (ws : list float) : float :=
  foldl PrimFloat.add 0%float ws.

(** Modelled from the spec: [decayRate^i], taken as [i] products, each of
    them rounded. *)
Fixpoint power (decayRate : float) (i : nat) : float :=
  match i with
  | 0 => 1%float
  | S k => PrimFloat.mul (power decayRate k) decayRate
  end.

(** Modelled from the spec: the unnormalized weights of [n] ranked metrics,
    [decayRate^i] at 0-based position [i]. *)
Definition decayWeights (decayRate : float) (n : nat) : list float :=
  (λ i, power decayRate i) <$> seq 0 n.

(** Modelled from the spec: every weight divided by the sum of all. *)
Definition normalize (ws : list float) : list float :=
  (λ w, PrimFloat.div w (sumWeights ws)) <$> ws.

(** Modelled from the spec: the weights of a non-empty priority ordering. *)
Definition priorityWeights (decayRate : float) (priority : list Metric)
  : MetricWeightMap :=
  zip priority (normalize (decayWeights decayRate (length priority))).

(** Modelled from the spec: the first identifier of the ordering that is not
    in the universe or repeats an earlier one. *)
Fixpoint firstInvalid (universe seen priority : list Metric) : option Metric :=
  match priority with
  | [] => None
  | m :: rest =>
      if bool_decide (m ∈ universe) && bool_decide (m ∉ seen)
      then firstInvalid universe (m :: seen) rest
      else Some m
  end.

(** Modelled from the spec: the identifier a ValidationError names, if the
    ordering is not a sequence of valid, distinct identifiers covering the
    universe of the default weights. *)
Definition offending (priority universe : list Metric) : option Metric :=
  match firstInvalid universe [] priority with
  | Some m => Some m
  | None => head (filter (λ m, m ∉ priority) universe)
  end.

(** Modelled from the spec: the tolerance of the sum, [1e-6], as the nearest
    binary64 number. *)
Definition tolerance : float := 0x1.0c6f7a0b5ed8dp-20%float.

(** Modelled from the spec: the weights sum to 1.0 within the tolerance. *)
Definition sumsToOne (ws : list float) : bool :=
  PrimFloat.leb
    (PrimFloat.abs (PrimFloat.sub (sumWeights ws) 1%float)) tolerance.

(** Modelled from the spec: [computeWeights(priority, decayRate,
    defaultWeights)] of the Weight Calculator. *)
Definition computeWeights (priority : list Metric) (decayRate : float)
    (defaultWeights : MetricWeightMap) : Result MetricWeightMap :=
  match priority with
  | [] =>
      if sumsToOne defaultWeights.*2
      then Ok defaultWeights
      else Err ConfigError
  | _ :: _ =>
      match offending priority defaultWeights.*1 with
      | Some m => Err (ValidationError m)
      | None => Ok (priorityWeights decayRate priority)
      end
  end.

(** Modelled from the spec: the fixed decay rate, [priority_decay_rate: 0.7]
    in the documented configuration, as the nearest binary64 number. *)
Definition priority_decay_rate : float := 0x1.6666666666666p-1%float.

End WeightCalculator.

(** ** app/page.tsx: the form of the home page *)

Module Home.
Import Zod Api.

(** The updater of [handleSelect]. *)
Definition handleSelect (prev : list Model) (value : Model) : list Model :=
  if bool_decide (value ∈ prev)
  then filter (λ item, item ≠ value) prev
  else prev ++ [value].

(** The updater of [handleRemove]. *)
Definition handleRemove (prev : list Model) (value : Model) : list Model :=
  filter (λ item, item ≠ value) prev.

(** The two lists of the form: [selectedModels] and [orderedMetrics]. *)
Record FormState := {
  selectedModels : list Model;
  orderedMetrics : list Metric
}.

(** [useState<Model[]>([])] and [useState<Metric[]>([])]. *)
Definition initialForm : FormState :=
  {| selectedModels := []; orderedMetrics := [] |}.

(** What the user can do to the two lists: pick or unpick a model in the
    [MultiSelect] ([handleSelect]), remove a model badge ([handleRemove]),
    click a metric of the [OrderedCheckboxGroup], which is controlled by
    [orderedMetrics] and reports through [setOrderedMetrics]. *)
Inductive Action :=
| SelectModel (value : Model)
| RemoveModel (value : Model)
| ToggleMetric (value : Metric).

Definition act (st : FormState) (a : Action) : FormState :=
  match a with
  | SelectModel v =>
      {| selectedModels := handleSelect (selectedModels st) v;
         orderedMetrics := orderedMetrics st |}
  | RemoveModel v =>
      {| selectedModels := handleRemove (selectedModels st) v;
         orderedMetrics := orderedMetrics st |}
  | ToggleMetric v =>
      {| selectedModels := selectedModels st;
         orderedMetrics :=
           OrderedCheckboxGroup.onChangeArg
             (OrderedCheckboxGroup.handleToggle
                {| OrderedCheckboxGroup.controlledValues :=
                     Some (orderedMetrics st) |} [] v) |}
  end.

(** The object handed to [evaluateRequest.safeParse] by [handleSubmit]. *)
Definition requestObject (prompt : string) (models : list Model)
    (metrics : list Metric) : JsValue :=
  JsObject [ ("prompt", JsString prompt);
             ("models", JsArray (JsString <$> models));
             ("metrics", JsArray (JsString <$> metrics)) ].

(** What [handleSubmit] leaves behind: the [errors] record, the [isLoading]
    flag and the request handed to [sendEvaluateRequest], if any. *)
Record SubmitOutcome := {
  errors : gmap string string;
  isLoading : bool;
  sent : option JsValue
}.

Definition generalMessage : string :=
  "An error occurred while submitting the request".

Section WithEnvironment.

(** [String.prototype.trim] and zod's error map. *)
Variable trim : string → string.
Variable errorMap : ZodIssueCode → JsValue → string.

(** [handleSubmit]; [responseOk] is the [ok] field of what
    [sendEvaluateRequest] resolves to.  The data of a successful parse of
    [requestObject] has the same three fields as the object itself. *)
Definition handleSubmit (responseOk : bool) (input : string)
    (st : FormState) : SubmitOutcome :=
  let request :=
    requestObject (trim input) (selectedModels st) (orderedMetrics st) in
  let result := safeParse errorMap evaluateRequest request in
  if negb (success result) then
    {| errors := fieldErrors (issues result); isLoading := false;
       sent := None |}
  else
    {| errors := if responseOk then ∅ else {[ "general" := generalMessage ]};
       isLoading := false;
       sent := Some request |}.

End WithEnvironment.

End Home.

(** ** components/multiselect.tsx *)

Module MultiSelect.

(** [options.filter((option) => selectedValues.includes(option.value))]. *)
Definition selectedItems (options : list Consts.Option)
    (selectedValues : list string) : list Consts.Option :=
  filter (λ option, Consts.value option ∈ selectedValues) options.

End MultiSelect.

(** ** app/results/page.tsx: reading the event stream *)

Module StreamReader.

(** [s.split(sep)] for a one-character separator; [cur] is the piece being
    read. *)
Fixpoint splitFrom (sep : ascii) (cur : string) (s : string) : list string :=
  match s with
  | EmptyString => [cur]
  | String c rest =>
      if Ascii.eqb c sep
      then cur :: splitFrom sep EmptyString rest
      else splitFrom sep (cur +:+ String c EmptyString) rest
  end.

Definition split (sep : ascii) (s : string) : list string :=
  splitFrom sep EmptyString s.

Definition newline : ascii := "010"%char.

(** [line.slice(n)]. *)
Fixpoint slice (n : nat) (line : string) : string :=
  match n, line with
  | 0, _ => line
  | S n', String _ rest => slice n' rest
  | S _, EmptyString => EmptyString
  end.

(** [if (line.startsWith("data: ")) { const data = line.slice(6); ... }]. *)
Definition dataOf (line : string) : option string :=
  if String.prefix "data: " line then Some (slice 6 line) else None.

(** One turn of the read loop on the decoded text of a chunk: the payloads
    handed to [JSON.parse], in order, and the next [buffer]
    ([lines.pop() || ""]). *)
Definition readChunk (buffer text : string) : list string * string :=
  let lines := split newline (buffer +:+ text) in
  (omap dataOf (removelast lines), default "" (last lines)).

(** The loop over the chunks of the response body, from [buffer]. *)
Fixpoint readLoop (buffer : string) (chunks : list string)
  : list string * string :=
  match chunks with
  | [] => ([], buffer)
  | text :: rest =>
      let '(payloads, buffer') := readChunk buffer text in
      let '(later, final) := readLoop buffer' rest in
      (payloads ++ later, final)
  end.

(** The events [handleStreamEvent] is called with; [parseEvent] is
    [JSON.parse] followed by the cast, [None] when it throws. *)
Definition dispatched (parseEvent : string → option StreamEvent.t)
    (chunks : list string) : list StreamEvent.t :=
  omap parseEvent (readLoop "" chunks).1.

End StreamReader.

(** ** components/model-output-card.tsx *)

Module ModelOutputCard.

(** The blocks of the card body that are rendered conditionally. *)
Inductive Panel :=
| Waiting
| Generating
| Streaming (code : string)
| ErrorBox (message : string)
| CodeBox (cleanCode : string)
| Evaluation (pros cons : list string).

Definition nonEmpty (s : string) : bool :=
  match s with EmptyString => false | String _ _ => true end.

Definition isStatus (s1 s2 : ModelStatus.t) : bool :=
  match s1, s2 with
  | ModelStatus.pending, ModelStatus.pending
  | ModelStatus.processing, ModelStatus.processing
  | ModelStatus.complete, ModelStatus.complete
  | ModelStatus.error, ModelStatus.error => true
  | _, _ => false
  end.

(** [MODELS.find((m) => m.value === result.model)?.label || result.model]. *)
Definition modelLabel (models : list Consts.Option) (r : ModelResult.t)
  : string :=
  match List.find (λ m, bool_decide (Consts.value m = ModelResult.model r))
          models with
  | Some m =>
      if nonEmpty (Consts.label m) then Consts.label m else ModelResult.model r
  | None => ModelResult.model r
  end.

Section WithCleanCodeFences.

(** [cleanCodeFences], two regular-expression replacements and a trim. *)
Variable cleanCodeFences : string → string.

(** [result.code ? cleanCodeFences(result.code) : ""]. *)
Definition cleanCode (r : ModelResult.t) : string :=
  if nonEmpty (ModelResult.code r) then cleanCodeFences (ModelResult.code r)
  else "".

Definition showCode (r : ModelResult.t) : bool :=
  isStatus (ModelResult.status r) ModelStatus.complete && nonEmpty (cleanCode r).

Definition showError (r : ModelResult.t) : bool :=
  isStatus (ModelResult.status r) ModelStatus.error
  && match ModelResult.error r with Some e => nonEmpty e | None => false end.

Definition showEvaluation (r : ModelResult.t) : bool :=
  isStatus (ModelResult.status r) ModelStatus.complete
  && bool_decide (is_Some (ModelResult.pros r))
  && bool_decide (is_Some (ModelResult.cons r))
  && bool_decide (is_Some (ModelResult.overallScore r)).

(** The blocks of [CardContent], in document order. *)
Definition panels (r : ModelResult.t) : list Panel :=
  (if isStatus (ModelResult.status r) ModelStatus.pending
   then [Waiting] else [])
  ++ (if isStatus (ModelResult.status r) ModelStatus.processing
         && negb (nonEmpty (ModelResult.code r))
      then [Generating] else [])
  ++ (if isStatus (ModelResult.status r) ModelStatus.processing
         && nonEmpty (ModelResult.code r)
      then [Streaming (cleanCodeFences (ModelResult.code r))] else [])
  ++ (if showError r
      then [ErrorBox (default "" (ModelResult.error r))] else [])
  ++ (if showCode r then [CodeBox (cleanCode r)] else [])
  ++ (if showEvaluation r
      then [Evaluation (default [] (ModelResult.pros r))
                       (default [] (ModelResult.cons r))]
      else []).

End WithCleanCodeFences.

End ModelOutputCard.

(** ** Vocabulary used by the statements *)

(** [chunks.join("")]: the chunks one after the other. *)
Definition joinChunks (chunks : list string) : string :=
  foldr String.append "" chunks.

(** The model a per-model event is keyed by ([event.model]); [summary] and
    [complete] have none, an [error] event may have none. *)
Definition eventModel (event : StreamEvent.t) : option Model :=
  match event with
  | StreamEvent.generation_start m => Some m
  | StreamEvent.code_chunk m _ => Some m
  | StreamEvent.generation_complete m _ _ => Some m
  | StreamEvent.evaluation_result m _ _ _ => Some m
  | StreamEvent.error _ model => model
  | StreamEvent.summary _ _ => None
  | StreamEvent.complete => None
  end.

(** A value is a list of known identifiers when it is an array of strings each
    of which is one of [values]; the array may be empty and may repeat an
    identifier. *)
Definition knownList (values : list string) (v : Zod.JsValue) : Prop :=
  ∃ l : list string, v = Zod.JsArray (Zod.JsString <$> l) ∧ Forall (.∈ values) l.

(** An action of the home form whose value is one of the options offered by
    the control it belongs to. *)
Definition offered (a : Home.Action) : Prop :=
  match a with
  | Home.SelectModel v | Home.RemoveModel v => v ∈ Api.modelValues
  | Home.ToggleMetric v => v ∈ Api.metricValues
  end.

(** The issue of element [i] of an array of strings checked against an
    enumeration, if it raises one. *)
Definition enumIssueOf (errorMap : Zod.ZodIssueCode → Zod.JsValue → string)
    (values : list string) (p : list Zod.PathSegment)
    (i : nat) (s : string) : option Zod.ZodIssue :=
  if bool_decide (s ∈ values) then None
  else Some {| Zod.code := Zod.invalid_enum_value;
               Zod.path := p ++ [Zod.index i];
               Zod.message := errorMap Zod.invalid_enum_value (Zod.JsString s) |}.

(** The string holds no occurrence of the character. *)
Definition freeOf (sep : ascii) (s : string) : Prop :=
  sep ∉ list_ascii_of_string s.

(** * Theorems *)

Section PriorityPicker.
Import OrderedCheckboxGroup.

Lemma newValues_absent (l : list TValue) v :
  v ∉ l → newValues l v = l ++ [v].
Proof. intros H. unfold newValues. by rewrite bool_decide_eq_false_2. Qed.

Lemma newValues_present (l : list TValue) v :
  v ∈ l → newValues l v = filter (λ x, x ≠ v) l.
Proof. intros H. unfold newValues. by rewrite bool_decide_eq_true_2. Qed.

Lemma filter_ne_absent (l : list TValue) v :
  v ∉ l → filter (λ x, x ≠ v) l = l.
Proof.
  induction l as [|x l IH]; [done|].
  rewrite not_elem_of_cons. intros [Hne Hl].
  rewrite filter_cons_True by congruence. by rewrite IH.
Qed.

Lemma filter_ne_split (l : list TValue) v :
  NoDup l → v ∈ l →
  ∃ l1 l2, l = l1 ++ v :: l2 ∧ filter (λ x, x ≠ v) l = l1 ++ l2.
Proof.
  intros Hnd Hin. apply list_elem_of_split in Hin as (l1 & l2 & ->).
  exists l1, l2. split; [done|].
  apply NoDup_app in Hnd as (_ & Hdisj & Hnd2).
  apply NoDup_cons in Hnd2 as [Hv2 _].
  rewrite filter_app, filter_cons_False by naive_solver.
  rewrite !filter_ne_absent; [done|done|].
  intros Hv1. apply (Hdisj v Hv1). left.
Qed.

Lemma newValues_NoDup (l : list TValue) v : NoDup l → NoDup (newValues l v).
Proof.
  intros Hnd. unfold newValues. case_bool_decide as Hin.
  - by apply NoDup_filter.
  - apply NoDup_app. split_and!; [done| |apply NoDup_singleton].
    intros x Hx ->%list_elem_of_singleton. done.
Qed.

Lemma newValues_twice (l : list TValue) v :
  v ∉ l → newValues (newValues l v) v = l.
Proof.
  intros Hv. rewrite (newValues_absent l v Hv).
  rewrite newValues_present by set_solver.
  rewrite filter_app, filter_ne_absent by done.
  rewrite filter_cons_False by naive_solver. by rewrite app_nil_r.
Qed.

End PriorityPicker.

(** C10. [handleToggle] keeps the set semantics of the priority ordering: on a
    duplicate-free selection, toggling an absent value appends it at the end,
    toggling a present value removes exactly that value and keeps the order of
    the others, and the outcome is again duplicate-free.  The outcome is what
    [onChange] receives, and it becomes the component's own state exactly
    when the component is uncontrolled; a controlled component leaves its
    state alone.  Toggling an absent value twice gives the original list
    back: in the uncontrolled component, where the second call runs on the
    state the first one stored, and in the controlled one, where the parent
    hands back the list [onChange] reported. *)
Theorem handleToggle_set_semantics
    (p : OrderedCheckboxGroup.Props)
    (internalValues : list OrderedCheckboxGroup.TValue)
    (v : OrderedCheckboxGroup.TValue) :
  let selected := OrderedCheckboxGroup.selectedValues p internalValues in
  let out :=
    OrderedCheckboxGroup.onChangeArg
      (OrderedCheckboxGroup.handleToggle p internalValues v) in
  NoDup selected →
  (v ∉ selected → out = selected ++ [v])
  ∧ (v ∈ selected →
     ∃ l1 l2, selected = l1 ++ v :: l2 ∧ out = l1 ++ l2)
  ∧ NoDup out
  ∧ (v ∉ selected →
     ∀ p' internalValues',
       OrderedCheckboxGroup.selectedValues p' internalValues' = out →
       OrderedCheckboxGroup.onChangeArg
         (OrderedCheckboxGroup.handleToggle p' internalValues' v) = selected)
  ∧ OrderedCheckboxGroup.internalValues'
      (OrderedCheckboxGroup.handleToggle p internalValues v)
    = (if OrderedCheckboxGroup.isControlled p then internalValues else out)
  ∧ (OrderedCheckboxGroup.controlledValues p = None →
     let stored :=
       OrderedCheckboxGroup.internalValues'
         (OrderedCheckboxGroup.handleToggle p internalValues v) in
     stored = out
     ∧ OrderedCheckboxGroup.selectedValues p stored = out
     ∧ (v ∉ selected →
        OrderedCheckboxGroup.onChangeArg
          (OrderedCheckboxGroup.handleToggle p stored v) = internalValues
        ∧ OrderedCheckboxGroup.internalValues'
            (OrderedCheckboxGroup.handleToggle p stored v) = internalValues))
  ∧ (v ∉ selected →
     ∀ internalValues',
       let p' := {| OrderedCheckboxGroup.controlledValues := Some out |} in
       OrderedCheckboxGroup.onChangeArg
         (OrderedCheckboxGroup.handleToggle p' internalValues' v) = selected
       ∧ OrderedCheckboxGroup.internalValues'
           (OrderedCheckboxGroup.handleToggle p' internalValues' v)
         = internalValues').
Proof.
  intros selected out Hnd. subst out. cbn [OrderedCheckboxGroup.handleToggle
    OrderedCheckboxGroup.onChangeArg OrderedCheckboxGroup.internalValues'].
  fold selected.
  split_and!.
  - apply newValues_absent.
  - intros Hin. rewrite newValues_present by done.
    by apply filter_ne_split.
  - by apply newValues_NoDup.
  - intros Hv p' internal' Hsel. rewrite Hsel. by apply newValues_twice.
  - done.
  - intros Hnone. subst selected.
    unfold OrderedCheckboxGroup.isControlled,
      OrderedCheckboxGroup.selectedValues in *.
    rewrite Hnone in *. split_and!; [done|done|].
    intros Hv. split; by apply newValues_twice.
  - intros Hv internal'.
    cbn [OrderedCheckboxGroup.selectedValues
         OrderedCheckboxGroup.isControlled
         OrderedCheckboxGroup.controlledValues].
    split; [by apply newValues_twice|done].
Qed.

Lemma handleToggle_set_semantics_witness :
  let p := {| OrderedCheckboxGroup.controlledValues := None |} in
  let internalValues := ["time_complexity"; "readability"] in
  NoDup (OrderedCheckboxGroup.selectedValues p internalValues)
  ∧ NoDup (OrderedCheckboxGroup.onChangeArg
             (OrderedCheckboxGroup.handleToggle p internalValues
                "readability"))
  ∧ OrderedCheckboxGroup.internalValues'
      (OrderedCheckboxGroup.handleToggle p internalValues "readability")
    = ["time_complexity"].
Proof.
  intros p internalValues.
  assert (Hnd : NoDup (OrderedCheckboxGroup.selectedValues p internalValues)).
  { apply (bool_decide_unpack _). vm_compute. exact I. }
  pose proof (handleToggle_set_semantics p internalValues "readability" Hnd)
    as (_ & _ & Hout & _ & Hstate & _).
  split; [exact Hnd|]. split; [exact Hout|].
  exact (eq_trans Hstate eq_refl).
Defined.

(** ** The stream-event reducer *)

Section Reducer.
Import ResultsPage.
Variable numberToString : number → string.

Lemma append_assoc (a b c : string) : (a +:+ b) +:+ c = a +:+ (b +:+ c).
Proof.
  induction a as [|x a IH]; [done|].
  change (String x ((a +:+ b) +:+ c) = String x (a +:+ (b +:+ c))).
  by rewrite IH.
Qed.

Lemma append_empty_r (a : string) : a +:+ "" = a.
Proof.
  induction a as [|x a IH]; [done|].
  change (String x (a +:+ "") = String x a). by rewrite IH.
Qed.

Lemma currentResult_own (st : State) m r :
  results st !! m = Some r →
  currentResult (resultsObject st) m = Some (FoundResult r).
Proof. intros H. unfold currentResult. cbn [resultsObject entries]. by rewrite H. Qed.

Lemma currentResult_inherited (st : State) m :
  results st !! m = None → strays st !! m = None →
  currentResult (resultsObject st) m = inherited (protoReplaced st) m.
Proof.
  intros H1 H2. unfold currentResult.
  cbn [resultsObject entries partials prototypeReplaced]. by rewrite H1, H2.
Qed.

Lemma resultsObject_setResults f (st : State) :
  resultsObject (setResults f st) = f (resultsObject st).
Proof. unfold resultsObject, setResults; cbn. by destruct (f _). Qed.

Lemma setResults_same f (st : State) :
  f (resultsObject st) = resultsObject st → setResults f st = st.
Proof. intros H. unfold setResults. rewrite H. by destruct st. Qed.

Lemma updateResult_absent m f g (prev : ResultsObject) :
  currentResult prev m = None → updateResult m f g prev = prev.
Proof. intros H. unfold updateResult. by rewrite H. Qed.

Lemma updateResult_lookup m f g (st : State) r :
  results st !! m = Some r →
  entries (updateResult m f g (resultsObject st)) !! m = Some (f r).
Proof.
  intros H. unfold updateResult. rewrite (currentResult_own _ _ _ H).
  cbn [entries]. apply lookup_insert_eq.
Qed.

Lemma updateResult_frame m m' f g (prev : ResultsObject) :
  m' ≠ m → entries (updateResult m f g prev) !! m' = entries prev !! m'.
Proof.
  intros Hne. unfold updateResult.
  destruct (currentResult prev m) as [[r|p|text]|]; cbn [entries]; try done.
  by rewrite lookup_insert_ne.
Qed.

(** Folding chunk events for one model appends the chunks in order. *)
Lemma code_chunks_fold m (tchunks : list (number * string)) :
  ∀ st r,
    results st !! m = Some r →
    ∃ r',
      results (handleStreamEvents numberToString
                 ((λ tc, (tc.1, StreamEvent.code_chunk m tc.2)) <$> tchunks)
                 st) !! m = Some r'
      ∧ ModelResult.code r' = ModelResult.code r +:+ joinChunks (tchunks.*2).
Proof.
  induction tchunks as [|[t c] tchunks IH]; intros st r Hr.
  - exists r. split; [done|]. simpl. by rewrite append_empty_r.
  - cbn [fmap list_fmap handleStreamEvents foldl fst snd].
    set (st1 := handleStreamEvent numberToString t
                  (StreamEvent.code_chunk m c) st).
    assert (H1 : results st1 !! m
                 = Some (withCode r (ModelResult.code r +:+ c))).
    { subst st1. cbn [handleStreamEvent setResults results].
      by rewrite (updateResult_lookup _ _ _ _ _ Hr). }
    destruct (IH st1 _ H1) as (r' & Hr' & Hcode).
    exists r'. split; [exact Hr'|].
    rewrite Hcode. cbn [withCode ModelResult.code joinChunks foldr].
    by rewrite append_assoc.
Qed.

(** The accumulators of [generateProsAndCons] only ever grow at the end. *)
Lemma classify_fold (metrics : list (Metric * MetricValue)) :
  ∀ ps cs,
    foldl (classify numberToString) (ps, cs) metrics =
    (ps ++ ((λ e, (if bool_decide (Q2Qc 8 ≤ score e.2)%Qc
                   then "Excellent " else "Good ") +:+
                  replaceUnderscores e.1 +:+ " (" +:+
                  numberToString (score e.2) +:+ "/10): " +:+ notes e.2)
            <$> filter (λ e, (Q2Qc 6.5 ≤ score e.2)%Qc) metrics),
     cs ++ ((λ e, (if bool_decide (Q2Qc 5 ≤ score e.2)%Qc
                   then "Moderate " else "Poor ") +:+
                  replaceUnderscores e.1 +:+ " (" +:+
                  numberToString (score e.2) +:+ "/10): " +:+ notes e.2)
            <$> filter (λ e, (score e.2 < Q2Qc 6.5)%Qc) metrics)).
Proof.
  assert (H86 : (Q2Qc 6.5 ≤ Q2Qc 8)%Qc) by (by vm_compute).
  assert (H56 : (Q2Qc 5 < Q2Qc 6.5)%Qc) by (by vm_compute).
  induction metrics as [|[k v] metrics IH]; intros ps cs.
  - cbn. by rewrite !app_nil_r.
  - cbn [foldl classify]. cbv zeta. repeat case_bool_decide.
    + rewrite IH.
      rewrite filter_cons_True by (cbn; by eapply Qcle_trans).
      rewrite filter_cons_False
        by (cbn; apply Qcle_not_lt; by eapply Qcle_trans).
      cbn [fmap list_fmap fst snd]. rewrite bool_decide_eq_true_2 by done.
      by rewrite <- app_assoc.
    + rewrite IH.
      rewrite filter_cons_True by done.
      rewrite filter_cons_False by (cbn; by apply Qcle_not_lt).
      cbn [fmap list_fmap fst snd]. rewrite bool_decide_eq_false_2 by done.
      by rewrite <- app_assoc.
    + rewrite IH.
      rewrite filter_cons_False by done.
      rewrite filter_cons_True by (cbn; by apply Qcnot_le_lt).
      cbn [fmap list_fmap fst snd]. rewrite bool_decide_eq_true_2 by done.
      by rewrite <- app_assoc.
    + rewrite IH.
      rewrite filter_cons_False by done.
      rewrite filter_cons_True by (cbn; by apply Qcnot_le_lt).
      cbn [fmap list_fmap fst snd]. rewrite bool_decide_eq_false_2 by done.
      by rewrite <- app_assoc.
Qed.

Lemma replaceUnderscores_chars (key : string) :
  list_ascii_of_string (replaceUnderscores key)
  = (λ c, if Ascii.eqb c "_" then " "%char else c)
    <$> list_ascii_of_string key.
Proof.
  induction key as [|c key IH]; [done|].
  cbn [replaceUnderscores list_ascii_of_string fmap list_fmap].
  by rewrite IH.
Qed.

End Reducer.


(** C5. [generateProsAndCons] sorts every metric into exactly one of the two
    arrays by its score, with bands closed at their lower bound: at least 8 is
    an "Excellent" pro, from 6.5 up to 8 a "Good" pro, from 5 up to 6.5 a
    "Moderate" con, below 5 a "Poor" con.  The pros are exactly the entries
    scoring at least 6.5 and the cons exactly the others, each in the order of
    the metrics.  The text pushed is the framing word, the metric name with
    every underscore turned into a space, the score over 10 in parentheses
    and, after a colon, the notes. *)
Theorem generateProsAndCons_bands
    (numberToString : number → string) (metrics : list (Metric * MetricValue)) :
  ∃ pros cons,
    ResultsPage.generateProsAndCons numberToString metrics = (pros, cons)
    ∧ pros =
        ((λ e, (if bool_decide (Q2Qc 8 ≤ score e.2)%Qc
                then "Excellent " else "Good ") +:+
               ResultsPage.replaceUnderscores e.1 +:+ " (" +:+
               numberToString (score e.2) +:+ "/10): " +:+ notes e.2)
         <$> filter (λ e, (Q2Qc 6.5 ≤ score e.2)%Qc) metrics)
    ∧ cons =
        ((λ e, (if bool_decide (Q2Qc 5 ≤ score e.2)%Qc
                then "Moderate " else "Poor ") +:+
               ResultsPage.replaceUnderscores e.1 +:+ " (" +:+
               numberToString (score e.2) +:+ "/10): " +:+ notes e.2)
         <$> filter (λ e, (score e.2 < Q2Qc 6.5)%Qc) metrics)
    ∧ length pros + length cons = length metrics
    ∧ (∀ key value, (key, value) ∈ metrics →
        ((Q2Qc 8 ≤ score value)%Qc →
           "Excellent " +:+ ResultsPage.replaceUnderscores key +:+ " (" +:+
           numberToString (score value) +:+ "/10): " +:+ notes value ∈ pros)
        ∧ ((Q2Qc 6.5 ≤ score value)%Qc → (score value < Q2Qc 8)%Qc →
           "Good " +:+ ResultsPage.replaceUnderscores key +:+ " (" +:+
           numberToString (score value) +:+ "/10): " +:+ notes value ∈ pros)
        ∧ ((Q2Qc 5 ≤ score value)%Qc → (score value < Q2Qc 6.5)%Qc →
           "Moderate " +:+ ResultsPage.replaceUnderscores key +:+ " (" +:+
           numberToString (score value) +:+ "/10): " +:+ notes value ∈ cons)
        ∧ ((score value < Q2Qc 5)%Qc →
           "Poor " +:+ ResultsPage.replaceUnderscores key +:+ " (" +:+
           numberToString (score value) +:+ "/10): " +:+ notes value ∈ cons))
    ∧ (∀ key,
         list_ascii_of_string (ResultsPage.replaceUnderscores key)
         = (λ c, if Ascii.eqb c "_" then " "%char else c)
           <$> list_ascii_of_string key)
    ∧ ResultsPage.generateProsAndCons (λ _, "8")
        [ ("code_quality", {| score := Q2Qc 8; notes := "clean" |});
          ("time_complexity", {| score := Q2Qc 6.5; notes := "fine" |});
          ("security", {| score := Q2Qc 5; notes := "weak" |});
          ("documentation", {| score := Q2Qc 4.9; notes := "none" |}) ]
      = ([ "Excellent code quality (8/10): clean";
           "Good time complexity (8/10): fine" ],
         [ "Moderate security (8/10): weak";
           "Poor documentation (8/10): none" ]).
Proof.
  eexists _, _. split.
  { unfold ResultsPage.generateProsAndCons. rewrite classify_fold.
    rewrite !app_nil_l. reflexivity. }
  split; [reflexivity|]. split; [reflexivity|]. split; [|split; [|split]].
  - rewrite !length_fmap. clear.
    induction metrics as [|e metrics IH]; [done|].
    destruct (decide (Q2Qc 6.5 ≤ score e.2)%Qc) as [Hge|Hlt].
    + rewrite filter_cons_True by done.
      rewrite filter_cons_False by (by apply Qcle_not_lt).
      cbn [length]. lia.
    + rewrite filter_cons_False by done.
      rewrite filter_cons_True by (by apply Qcnot_le_lt).
      cbn [length]. lia.
  - assert (H86 : (Q2Qc 6.5 ≤ Q2Qc 8)%Qc) by (by vm_compute).
    assert (H56 : (Q2Qc 5 < Q2Qc 6.5)%Qc) by (by vm_compute).
    intros key value Hin. split_and!.
    + intros H8. apply list_elem_of_fmap. exists (key, value). split.
      * cbn. by rewrite bool_decide_eq_true_2.
      * apply list_elem_of_filter. split; [|done]. cbn. by eapply Qcle_trans.
    + intros H65 H8. apply list_elem_of_fmap. exists (key, value). split.
      * cbn. rewrite bool_decide_eq_false_2; [done|by apply Qclt_not_le].
      * by apply list_elem_of_filter.
    + intros H5 H65. apply list_elem_of_fmap. exists (key, value). split.
      * cbn. by rewrite bool_decide_eq_true_2.
      * by apply list_elem_of_filter.
    + intros H5. apply list_elem_of_fmap. exists (key, value). split.
      * cbn. rewrite bool_decide_eq_false_2; [done|by apply Qclt_not_le].
      * apply list_elem_of_filter. split; [|done]. cbn.
        by eapply Qclt_trans.
  - apply replaceUnderscores_chars.
  - vm_compute. reflexivity.
Qed.










(** ** Boundary validation *)

Section Boundary.
Import Zod Api.
Variable errorMap : ZodIssueCode → JsValue → string.

Lemma parseItems_enum_nil (values : list string) (p : list PathSegment) :
  ∀ (items : list JsValue) (i : nat),
    parseItems (λ i x, _parse errorMap (ZodEnum values) (p ++ [index i]) x)
      i items = []
    ↔ ∃ l : list string, items = JsString <$> l ∧ Forall (.∈ values) l.
Proof.
  intros items i. split.
  - revert i. induction items as [|x items IH]; intros i.
    + intros _. by exists [].
    + cbn [parseItems]. intros [Hx Hrest]%app_eq_nil.
      apply IH in Hrest as (l & -> & Hl).
      destruct x as [| | | |s| |]; try discriminate Hx.
      cbn in Hx. case_bool_decide; [|discriminate Hx].
      exists (s :: l). split; [done|]. by constructor.
  - intros (l & -> & Hall). revert i.
    induction Hall as [|s l Hs Hall IH]; intros i; [done|].
    cbn [fmap list_fmap parseItems]. rewrite IH.
    cbn [_parse]. by rewrite bool_decide_eq_true_2.
Qed.

Lemma parse_enum_array_nil (values : list string) (p : list PathSegment)
    (v : JsValue) :
  _parse errorMap (ZodArray (ZodEnum values)) p v = [] ↔ knownList values v.
Proof.
  unfold knownList. destruct v as [| | | | |items|];
    try (split; [discriminate|by intros (l & ? & _)]).
  change (_parse errorMap (ZodArray (ZodEnum values)) p (JsArray items))
    with (parseItems
            (λ i x, _parse errorMap (ZodEnum values) (p ++ [index i]) x)
            0 items).
  rewrite parseItems_enum_nil. split.
  - intros (l & -> & Hl). by exists l.
  - intros (l & Hl & Hall). injection Hl as ->. by exists l.
Qed.

Lemma parse_evaluateRequest_object (fields : list (string * JsValue)) :
  _parse errorMap evaluateRequest [] (JsObject fields)
  = _parse errorMap (ZodString (Some (5, promptMessage))) [key "prompt"]
      (getField "prompt" fields)
    ++ _parse errorMap (ZodArray (ZodEnum modelValues)) [key "models"]
         (getField "models" fields)
    ++ _parse errorMap (ZodArray (ZodEnum metricValues)) [key "metrics"]
         (getField "metrics" fields).
Proof. cbn [_parse evaluateRequest app]. by rewrite app_nil_r. Qed.

Lemma success_iff_no_issue (schema : ZodType) (data : JsValue) :
  success (safeParse errorMap schema data) = true
  ↔ _parse errorMap schema [] data = [].
Proof.
  unfold safeParse. cbn [success].
  destruct (_parse errorMap schema [] data); split; done.
Qed.

(** Acceptance of a request object, field by field. *)
Lemma accepted_iff (fields : list (string * JsValue)) :
  success (safeParse errorMap evaluateRequest (JsObject fields)) = true
  ↔ (∃ s, getField "prompt" fields = JsString s ∧ (5 ≤ String.length s)%nat)
    ∧ knownList modelValues (getField "models" fields)
    ∧ knownList metricValues (getField "metrics" fields).
Proof.
  rewrite success_iff_no_issue, parse_evaluateRequest_object.
  rewrite <- !parse_enum_array_nil.
  split.
  - intros [Hp [Hm Hx]%app_eq_nil]%app_eq_nil. split_and!; [|done|done].
    destruct (getField "prompt" fields) as [| | | |s| |];
      cbn in Hp; try discriminate Hp.
    exists s. split; [done|].
    destruct (Nat.leb_spec (String.length s) 4); [discriminate Hp|lia].
  - intros ((s & -> & Hlen) & Hm & Hx). rewrite Hm, Hx. cbn.
    destruct (Nat.leb_spec (String.length s) 4); [lia|done].
Qed.

Lemma rejected_non_object (v : JsValue) :
  (∀ fields, v ≠ JsObject fields) →
  success (safeParse errorMap evaluateRequest v) = false.
Proof. intros Hv. destruct v; try done. by destruct (Hv fields). Qed.

End Boundary.

(** C2 (as amended). [evaluateRequest.safeParse] accepts a request only if its
    models field is an array whose every element is a known model identifier;
    it does not ask the identifiers to be distinct: a request with a prompt of
    at least 5 characters, a non-empty models array of known identifiers
    (repeated or not) and a metrics array of known metrics is accepted. *)
Theorem models_known_not_distinct
    (errorMap : Zod.ZodIssueCode → Zod.JsValue → string) :
  (∀ req : Zod.JsValue,
     Zod.success (Zod.safeParse errorMap Api.evaluateRequest req) = true →
     ∃ fields ms,
       req = Zod.JsObject fields
       ∧ Zod.getField "models" fields = Zod.JsArray (Zod.JsString <$> ms)
       ∧ Forall (.∈ Api.modelValues) ms)
  ∧ (∀ (fields : list (string * Zod.JsValue)) (s : string) (ms : list string),
       Zod.getField "prompt" fields = Zod.JsString s →
       (5 ≤ String.length s)%nat →
       Zod.getField "models" fields = Zod.JsArray (Zod.JsString <$> ms) →
       ms ≠ [] →
       Forall (.∈ Api.modelValues) ms →
       knownList Api.metricValues (Zod.getField "metrics" fields) →
       Zod.success
         (Zod.safeParse errorMap Api.evaluateRequest (Zod.JsObject fields))
       = true).
Proof.
  split.
  - intros req Hok.
    destruct req as [| | | | | |fields];
      try (rewrite rejected_non_object in Hok; done).
    apply accepted_iff in Hok as (_ & (ms & Hms & Hall) & _).
    by exists fields, ms.
  - intros fields s ms Hp Hlen Hms _ Hall Hx. apply accepted_iff.
    split_and!; [by exists s| |done]. by exists ms.
Qed.

(** C2, the claim as stated, fails: a request naming the same known model
    twice is accepted. *)
Lemma duplicate_models_accepted :
  Zod.success
    (Zod.safeParse Zod.fallbackErrorMap Api.evaluateRequest
       (Zod.JsObject
          [ ("prompt", Zod.JsString "Sort a list");
            ("models", Zod.JsArray [ Zod.JsString "gemini-2.5-pro";
                                     Zod.JsString "gemini-2.5-pro" ]);
            ("metrics", Zod.JsArray []) ]))
  = true
  ∧ ¬ NoDup ["gemini-2.5-pro"; "gemini-2.5-pro"].
Proof.
  split; [reflexivity|].
  intros [Hnotin _]%NoDup_cons. apply Hnotin. left.
Qed.

(** The empty models array passes the schema as well. *)
Example empty_models_accepted :
  Zod.success
    (Zod.safeParse Zod.fallbackErrorMap Api.evaluateRequest
       (Zod.JsObject
          [ ("prompt", Zod.JsString "Sort a list");
            ("models", Zod.JsArray []);
            ("metrics", Zod.JsArray []) ]))
  = true.
Proof. reflexivity. Qed.

(** C3. On a request whose models and metrics fields are valid and whose
    prompt is a string, [evaluateRequest.safeParse] succeeds exactly when the
    prompt has at least 5 characters; when it is shorter, the parse fails with
    the single issue of the prompt field, whose message [handleSubmit] files
    under ["prompt"]. *)
Theorem prompt_min_length
    (errorMap : Zod.ZodIssueCode → Zod.JsValue → string)
    (fields : list (string * Zod.JsValue)) (s : string) :
  Zod.getField "prompt" fields = Zod.JsString s →
  knownList Api.modelValues (Zod.getField "models" fields) →
  knownList Api.metricValues (Zod.getField "metrics" fields) →
  let result :=
    Zod.safeParse errorMap Api.evaluateRequest (Zod.JsObject fields) in
  (Zod.success result = true ↔ (5 ≤ String.length s)%nat)
  ∧ ((String.length s < 5)%nat →
     Zod.success result = false
     ∧ Zod.issues result
       = [ {| Zod.code := Zod.too_small;
              Zod.path := [Zod.key "prompt"];
              Zod.message := Api.promptMessage |} ]
     ∧ Api.fieldErrors (Zod.issues result) !! "prompt"
       = Some Api.promptMessage).
Proof.
  intros Hp Hm Hx result. split.
  - subst result. rewrite accepted_iff. split.
    + intros ((s' & Hs' & Hlen) & _). congruence.
    + intros Hlen. split_and!; [by exists s|done|done].
  - intros Hlen.
    assert (Hissues : Zod.issues result
              = [ {| Zod.code := Zod.too_small;
                     Zod.path := [Zod.key "prompt"];
                     Zod.message := Api.promptMessage |} ]).
    { subst result. unfold Zod.safeParse. cbn [Zod.issues].
      rewrite parse_evaluateRequest_object, Hp.
      rewrite (proj2 (parse_enum_array_nil errorMap _ [Zod.key "models"] _) Hm).
      rewrite (proj2 (parse_enum_array_nil errorMap _ [Zod.key "metrics"] _) Hx).
      cbn. destruct (Nat.leb_spec (String.length s) 4); [done|lia]. }
    split_and!.
    + subst result. unfold Zod.safeParse in *. cbn [Zod.success Zod.issues] in *.
      by rewrite Hissues.
    + exact Hissues.
    + rewrite Hissues. unfold Api.fieldErrors. cbn. apply lookup_insert_eq.
Qed.

Lemma prompt_min_length_witness :
  Zod.success
    (Zod.safeParse Zod.fallbackErrorMap Api.evaluateRequest
       (Zod.JsObject
          [ ("prompt", Zod.JsString "sort");
            ("models", Zod.JsArray [Zod.JsString "gemini-2.5-flash"]);
            ("metrics", Zod.JsArray [Zod.JsString "readability"]) ]))
  = false.
Proof.
  refine (proj1 (proj2 (prompt_min_length Zod.fallbackErrorMap
    [ ("prompt", Zod.JsString "sort");
      ("models", Zod.JsArray [Zod.JsString "gemini-2.5-flash"]);
      ("metrics", Zod.JsArray [Zod.JsString "readability"]) ]
    "sort" eq_refl _ _) _)).
  - exists ["gemini-2.5-flash"]. split; [reflexivity|].
    apply (bool_decide_unpack _). vm_compute. exact I.
  - exists ["readability"]. split; [reflexivity|].
    apply (bool_decide_unpack _). vm_compute. exact I.
  - simpl. lia.
Defined.

(** C4 (as amended). The metrics field is not optional in the schema, it is
    allowed to be empty: with a valid prompt and valid models, a request whose
    metrics field is the empty array is accepted, and a request with no
    metrics field is rejected with one [invalid_type] issue on that field. *)
Theorem metrics_required_may_be_empty
    (errorMap : Zod.ZodIssueCode → Zod.JsValue → string)
    (fields : list (string * Zod.JsValue)) (s : string) :
  Zod.getField "prompt" fields = Zod.JsString s →
  (5 ≤ String.length s)%nat →
  knownList Api.modelValues (Zod.getField "models" fields) →
  let result :=
    Zod.safeParse errorMap Api.evaluateRequest (Zod.JsObject fields) in
  (Zod.getField "metrics" fields = Zod.JsArray [] → Zod.success result = true)
  ∧ (Zod.getField "metrics" fields = Zod.JsUndefined →
     Zod.success result = false
     ∧ Zod.issues result
       = [ {| Zod.code := Zod.invalid_type;
              Zod.path := [Zod.key "metrics"];
              Zod.message := errorMap Zod.invalid_type Zod.JsUndefined |} ]).
Proof.
  intros Hp Hlen Hm result. split.
  - intros Hx. subst result. apply accepted_iff.
    split_and!; [by exists s|done|]. rewrite Hx. by exists [].
  - intros Hx.
    assert (Hissues : Zod.issues result
              = [ {| Zod.code := Zod.invalid_type;
                     Zod.path := [Zod.key "metrics"];
                     Zod.message := errorMap Zod.invalid_type Zod.JsUndefined |} ]).
    { subst result. unfold Zod.safeParse. cbn [Zod.issues].
      rewrite parse_evaluateRequest_object, Hp, Hx.
      rewrite (proj2 (parse_enum_array_nil errorMap _ [Zod.key "models"] _) Hm).
      cbn. destruct (Nat.leb_spec (String.length s) 4); [lia|done]. }
    split; [|exact Hissues].
    subst result. unfold Zod.safeParse in *. cbn [Zod.success Zod.issues] in *.
    by rewrite Hissues.
Qed.

Lemma metrics_required_may_be_empty_witness :
  Zod.success
    (Zod.safeParse Zod.fallbackErrorMap Api.evaluateRequest
       (Zod.JsObject
          [ ("prompt", Zod.JsString "Sort a list");
            ("models", Zod.JsArray [Zod.JsString "gemini-2.5-flash"]);
            ("metrics", Zod.JsArray []) ]))
  = true.
Proof.
  refine (proj1 (metrics_required_may_be_empty Zod.fallbackErrorMap
    [ ("prompt", Zod.JsString "Sort a list");
      ("models", Zod.JsArray [Zod.JsString "gemini-2.5-flash"]);
      ("metrics", Zod.JsArray []) ]
    "Sort a list" eq_refl _ _) eq_refl).
  - simpl. lia.
  - exists ["gemini-2.5-flash"]. split; [reflexivity|].
    apply (bool_decide_unpack _). vm_compute. exact I.
Defined.

(** C4, the claim as stated, fails: without a metrics field the request is
    rejected although its prompt and models are valid. *)
Lemma missing_metrics_rejected :
  Zod.success
    (Zod.safeParse Zod.fallbackErrorMap Api.evaluateRequest
       (Zod.JsObject
          [ ("prompt", Zod.JsString "Sort a list");
            ("models", Zod.JsArray [Zod.JsString "gemini-2.5-flash"]) ]))
  = false.
Proof. reflexivity. Qed.

(** ** Priority weights *)

Section Weights.
Import WeightCalculator.

Lemma decayWeights_length (r : float) (n : nat) : length (decayWeights r n) = n.
Proof. unfold decayWeights. by rewrite length_fmap, length_seq. Qed.

Lemma priorityWeights_values (r : float) (priority : list Metric) :
  (priorityWeights r priority).*2
  = normalize (decayWeights r (length priority)).
Proof.
  unfold priorityWeights. apply snd_zip.
  unfold normalize. by rewrite length_fmap, decayWeights_length.
Qed.

Lemma priorityWeights_keys (r : float) (priority : list Metric) :
  (priorityWeights r priority).*1 = priority.
Proof.
  unfold priorityWeights. apply fst_zip.
  unfold normalize. by rewrite length_fmap, decayWeights_length.
Qed.

Lemma priorityWeights_lookup (r : float) (priority : list Metric) i m :
  priority !! i = Some m →
  priorityWeights r priority !! i
  = Some (m, PrimFloat.div (power r i)
               (sumWeights (decayWeights r (length priority)))).
Proof.
  intros Hm.
  assert (Hi : (i < length priority)%nat) by (by eapply lookup_lt_Some).
  unfold priorityWeights. apply lookup_zip_with_Some.
  eexists m, _. split_and!; [done|done|].
  unfold normalize, decayWeights.
  by rewrite !list_lookup_fmap, lookup_seq_lt.
Qed.

(** The weights of one to five metrics at the configured rate. *)
Lemma configured_weights (n : nat) :
  (1 ≤ n ≤ 5)%nat →
  ∃ ws, normalize (decayWeights priority_decay_rate n) = ws
    ∧ sumsToOne ws = true
    ∧ Forall (λ w, PrimFloat.ltb 0%float w = true
                   ∧ PrimFloat.leb w 1%float = true) ws
    ∧ ∀ i j wi wj, (i < j)%nat → ws !! i = Some wi → ws !! j = Some wj →
        PrimFloat.ltb wj wi = true.
Proof.
  intros Hn. eexists. split; [reflexivity|].
  destruct n as [|[|[|[|[|[|n]]]]]]; try lia.
  all: split_and!; [vm_compute; reflexivity| |].
  all: try (repeat (apply List.Forall_cons;
                    [split; vm_compute; reflexivity|]);
            apply List.Forall_nil).
  all: intros i j wi wj Hij Hi Hj;
    destruct i as [|[|[|[|[|i]]]]]; try discriminate Hi;
    destruct j as [|[|[|[|[|j]]]]]; try discriminate Hj; try lia;
    vm_compute in Hi, Hj; injection Hi as <-; injection Hj as <-;
    vm_compute; reflexivity.
Qed.

End Weights.




(** The weights of the documented example: five metrics, decay rate 0.7. *)
Example priority_weights_five_metrics :
  (WeightCalculator.priorityWeights WeightCalculator.priority_decay_rate
     ["time_complexity"; "readability"; "consistency"; "code_documentation";
      "external_dependencies"]).*2
  = [ 0x1.714307bec9d1fp-2%float; 0x1.027bb89f26dfcp-2%float;
      0x1.69e068ded006p-3%float; 0x1.faa092d189a1fp-4%float;
      0x1.62a399f9138afp-4%float ].
Proof. vm_compute. reflexivity. Qed.

(** * Further properties of the sources *)

(** ** Order numbers of the priority picker *)

Section OrderNumbers.
Import OrderedCheckboxGroup.

Lemma indexOf_None (l : list TValue) v : indexOf l v = None ↔ v ∉ l.
Proof.
  induction l as [|x l IH]; cbn [indexOf].
  - split; [intros _; apply not_elem_of_nil|done].
  - rewrite not_elem_of_cons. case_decide as Hx.
    + split; [done|]. intros [Hne _]. by subst.
    + rewrite fmap_None, IH. split; [by intros ?|by intros [_ ?]].
Qed.

Lemma indexOf_Some (l : list TValue) v i :
  indexOf l v = Some i →
  l !! i = Some v ∧ ∀ k, (k < i)%nat → l !! k ≠ Some v.
Proof.
  revert i. induction l as [|x l IH]; intros i; cbn [indexOf]; [done|].
  case_decide as Hx.
  - intros [= <-]. subst. split; [done|]. intros k Hk. lia.
  - intros (j & Hj & ->)%fmap_Some. destruct (IH j Hj) as [Hl Hfirst].
    split; [done|]. intros [|k] Hk; cbn; [congruence|].
    apply Hfirst. lia.
Qed.

Lemma indexOf_app (a b : list TValue) v :
  indexOf (a ++ b) v
  = match indexOf a v with
    | Some i => Some i
    | None => (λ i, length a + i)%nat <$> indexOf b v
    end.
Proof.
  induction a as [|x a IH]; cbn [app indexOf length].
  - by destruct (indexOf b v).
  - case_decide; [done|]. rewrite IH.
    destruct (indexOf a v); [done|]. by destruct (indexOf b v).
Qed.

Lemma indexOf_NoDup_lookup (l : list TValue) v i :
  NoDup l → l !! i = Some v → indexOf l v = Some i.
Proof.
  intros Hnd Hi.
  destruct (indexOf l v) as [j|] eqn:Hj.
  - apply indexOf_Some in Hj as [Hj _].
    f_equal. by eapply NoDup_lookup.
  - apply indexOf_None in Hj. destruct Hj. by eapply list_elem_of_lookup_2.
Qed.

End OrderNumbers.

(** X1. [getOrderNumber] is [null] exactly for the values that are not
    selected; otherwise it is the 1-based position of the first occurrence of
    the value in the selection. *)
Theorem getOrderNumber_position
    (selected : list OrderedCheckboxGroup.TValue)
    (value : OrderedCheckboxGroup.TValue) :
  (OrderedCheckboxGroup.getOrderNumber selected value = None ↔ value ∉ selected)
  ∧ ∀ n, OrderedCheckboxGroup.getOrderNumber selected value = Some n →
      (1 ≤ n ≤ length selected)%nat
      ∧ selected !! (n - 1)%nat = Some value
      ∧ ∀ k, (k < n - 1)%nat → selected !! k ≠ Some value.
Proof.
  unfold OrderedCheckboxGroup.getOrderNumber. split.
  - rewrite fmap_None. apply indexOf_None.
  - intros n (i & Hi & ->)%fmap_Some.
    apply indexOf_Some in Hi as [Hl Hfirst].
    replace (i + 1 - 1)%nat with i by lia.
    split_and!; [lia|apply lookup_lt_Some in Hl; lia|done|done].
Qed.

(** X2. On a duplicate-free selection the order numbers shown on the selected
    buttons are exactly 1, 2, ..., n, in selection order. *)
Theorem order_numbers_contiguous
    (selected : list OrderedCheckboxGroup.TValue) :
  NoDup selected →
  OrderedCheckboxGroup.getOrderNumber selected <$> selected
  = Some <$> seq 1 (length selected).
Proof.
  intros Hnd. apply list_eq. intros i.
  rewrite !list_lookup_fmap.
  destruct (selected !! i) as [v|] eqn:Hv.
  - rewrite lookup_seq_lt by (by eapply lookup_lt_Some).
    cbn. unfold OrderedCheckboxGroup.getOrderNumber.
    rewrite (indexOf_NoDup_lookup _ _ _ Hnd Hv). cbn. f_equal. f_equal. lia.
  - rewrite lookup_seq_ge by (by apply lookup_ge_None). done.
Qed.

Lemma order_numbers_contiguous_witness :
  OrderedCheckboxGroup.getOrderNumber
    ["readability"; "time_complexity"; "consistency"]
  <$> ["readability"; "time_complexity"; "consistency"]
  = [Some 1; Some 2; Some 3]%nat.
Proof.
  refine (order_numbers_contiguous
            ["readability"; "time_complexity"; "consistency"] _).
  apply (bool_decide_unpack _). vm_compute. exact I.
Defined.

(** X3. How a click renumbers a duplicate-free selection: a newly added value
    gets the next number and nobody else's number changes; a removed value
    loses its number, the values ranked before it keep theirs and the values
    ranked after it move up by one. *)
Theorem order_numbers_after_toggle
    (selected : list OrderedCheckboxGroup.TValue)
    (v : OrderedCheckboxGroup.TValue) :
  NoDup selected →
  let after := OrderedCheckboxGroup.newValues selected v in
  (v ∉ selected →
     OrderedCheckboxGroup.getOrderNumber after v = Some (length selected + 1)%nat
     ∧ ∀ x, x ∈ selected →
         OrderedCheckboxGroup.getOrderNumber after x
         = OrderedCheckboxGroup.getOrderNumber selected x)
  ∧ (v ∈ selected →
     OrderedCheckboxGroup.getOrderNumber after v = None
     ∧ ∀ x n k,
         x ≠ v →
         OrderedCheckboxGroup.getOrderNumber selected v = Some k →
         OrderedCheckboxGroup.getOrderNumber selected x = Some n →
         OrderedCheckboxGroup.getOrderNumber after x
         = Some (if (n <? k)%nat then n else (n - 1)%nat)).
Proof.
  intros Hnd after. subst after. unfold OrderedCheckboxGroup.getOrderNumber.
  split.
  - intros Hv. rewrite newValues_absent by done. split.
    + rewrite indexOf_app. rewrite (proj2 (indexOf_None _ _) Hv).
      cbn [OrderedCheckboxGroup.indexOf]. rewrite decide_True by done.
      cbn. f_equal. lia.
    + intros x Hx. rewrite indexOf_app.
      destruct (OrderedCheckboxGroup.indexOf selected x) eqn:Hix; [done|].
      apply indexOf_None in Hix. done.
  - intros Hv. rewrite newValues_present by done.
    destruct (filter_ne_split selected v Hnd Hv) as (l1 & l2 & -> & ->).
    apply NoDup_app in Hnd as (_ & Hdisj & Hnd2).
    apply NoDup_cons in Hnd2 as [Hv2 _].
    assert (Hv1 : v ∉ l1) by (intros H1; apply (Hdisj v H1); left).
    split.
    + apply fmap_None, indexOf_None.
      intros [?|?]%elem_of_app; done.
    + intros x n k Hxv. rewrite !indexOf_app.
      rewrite (proj2 (indexOf_None _ _) Hv1).
      cbn [OrderedCheckboxGroup.indexOf]. rewrite decide_True by done.
      cbn [fmap option_fmap option_map]. intros [= <-].
      destruct (OrderedCheckboxGroup.indexOf l1 x) as [i|] eqn:Hi.
      * cbn [fmap option_fmap option_map]. intros [= <-].
        assert (i < length l1)%nat.
        { apply indexOf_Some in Hi as [Hi _]. by eapply lookup_lt_Some. }
        destruct (Nat.ltb_spec (i + 1) (length l1 + 0 + 1)); [done|lia].
      * cbn [OrderedCheckboxGroup.indexOf]. rewrite decide_False by done.
        destruct (OrderedCheckboxGroup.indexOf l2 x) as [j|]; [|done].
        cbn [fmap option_fmap option_map]. intros [= <-].
        destruct (Nat.ltb_spec (length l1 + S j + 1) (length l1 + 0 + 1));
          [lia|]. f_equal. lia.
Qed.

Lemma order_numbers_after_toggle_witness :
  OrderedCheckboxGroup.getOrderNumber
    (OrderedCheckboxGroup.newValues
       ["readability"; "time_complexity"; "consistency"] "time_complexity")
    "consistency"
  = Some 2%nat.
Proof.
  assert (Hnd : NoDup ["readability"; "time_complexity"; "consistency"]).
  { apply (bool_decide_unpack _). vm_compute. exact I. }
  assert (Hin : "time_complexity"
                ∈ ["readability"; "time_complexity"; "consistency"]).
  { apply (bool_decide_unpack _). vm_compute. exact I. }
  exact (proj2 (proj2 (order_numbers_after_toggle
           ["readability"; "time_complexity"; "consistency"]
           "time_complexity" Hnd) Hin)
           "consistency" 3%nat 2%nat ltac:(discriminate) eq_refl eq_refl).
Defined.

(** ** The model list of the home form *)

Section ModelList.
Import Home.

Lemma handleSelect_newValues (prev : list Model) v :
  handleSelect prev v = OrderedCheckboxGroup.newValues prev v.
Proof. reflexivity. Qed.

Lemma handleRemove_NoDup (prev : list Model) v :
  NoDup prev → NoDup (handleRemove prev v).
Proof. apply NoDup_filter. Qed.

Lemma act_NoDup (st : FormState) (a : Action) :
  NoDup (selectedModels st) ∧ NoDup (orderedMetrics st) →
  NoDup (selectedModels (act st a)) ∧ NoDup (orderedMetrics (act st a)).
Proof.
  intros [Hm Hx]. destruct a as [v|v|v]; cbn; split; try done.
  - rewrite handleSelect_newValues. by apply newValues_NoDup.
  - by apply handleRemove_NoDup.
  - by apply newValues_NoDup.
Qed.

Lemma act_members (st : FormState) (a : Action) :
  (∀ m, m ∈ selectedModels (act st a) →
        m ∈ selectedModels st ∨ a = SelectModel m)
  ∧ (∀ m, m ∈ orderedMetrics (act st a) →
          m ∈ orderedMetrics st ∨ a = ToggleMetric m).
Proof.
  destruct a as [v|v|v]; cbn; split; intros m Hm; auto.
  - unfold handleSelect in Hm. case_bool_decide.
    + apply list_elem_of_filter in Hm as [_ Hm]. by left.
    + apply elem_of_app in Hm as [Hm|Hm%list_elem_of_singleton];
        [by left|right; by subst].
  - apply list_elem_of_filter in Hm as [_ Hm]. by left.
  - unfold OrderedCheckboxGroup.newValues in Hm. case_bool_decide.
    + apply list_elem_of_filter in Hm as [_ Hm]. by left.
    + apply elem_of_app in Hm as [Hm|Hm%list_elem_of_singleton];
        [by left|right; by subst].
Qed.

Lemma form_invariant (actions : list Action) :
  NoDup (selectedModels (foldl act initialForm actions))
  ∧ NoDup (orderedMetrics (foldl act initialForm actions))
  ∧ (∀ m, m ∈ selectedModels (foldl act initialForm actions) →
          SelectModel m ∈ actions)
  ∧ (∀ m, m ∈ orderedMetrics (foldl act initialForm actions) →
          ToggleMetric m ∈ actions).
Proof.
  induction actions as [|a actions IH] using rev_ind.
  - cbn. split_and!; try apply NoDup_nil_2; intros m Hm; by inversion Hm.
  - rewrite foldl_app. cbn [foldl].
    destruct IH as (Hm & Hx & Hms & Hxs).
    set (st := foldl act initialForm actions) in *.
    destruct (act_NoDup st a (conj Hm Hx)) as [Hm' Hx'].
    destruct (act_members st a) as [Hms' Hxs'].
    split_and!; [done|done| |].
    + intros m Hin. apply elem_of_app.
      destruct (Hms' m Hin) as [?| ->]; [left; auto|right; left].
    + intros m Hin. apply elem_of_app.
      destruct (Hxs' m Hin) as [?| ->]; [left; auto|right; left].
Qed.

End ModelList.

(** X4. [handleRemove] takes every occurrence of the value out of the list and
    keeps the other values in their order; it changes nothing when the value
    is not selected, doing it twice is doing it once, and removing a value
    right after [handleSelect] was called on it gives the same list as
    removing it straight away. *)
Theorem handleRemove_removes (prev : list Model) (value : Model) :
  (value ∉ Home.handleRemove prev value)
  ∧ (∀ x, x ≠ value → (x ∈ Home.handleRemove prev value ↔ x ∈ prev))
  ∧ sublist (Home.handleRemove prev value) prev
  ∧ (value ∉ prev → Home.handleRemove prev value = prev)
  ∧ Home.handleRemove (Home.handleRemove prev value) value
    = Home.handleRemove prev value
  ∧ Home.handleRemove (Home.handleSelect prev value) value
    = Home.handleRemove prev value.
Proof.
  unfold Home.handleRemove. split_and!.
  - intros [Hne _]%list_elem_of_filter. done.
  - intros x Hx. rewrite list_elem_of_filter. split; [by intros [_ ?]|done].
  - apply sublist_filter.
  - apply filter_ne_absent.
  - apply filter_ne_absent. intros [Hne _]%list_elem_of_filter. done.
  - unfold Home.handleSelect. case_bool_decide as Hin.
    + apply filter_ne_absent. intros [Hne _]%list_elem_of_filter. done.
    + rewrite filter_app, filter_cons_False by naive_solver.
      by rewrite filter_nil, app_nil_r.
Qed.

(** X5. Whatever the user clicks, in whatever order, the two lists of the form
    never hold a value twice, and they hold only values that were clicked
    ([handleSelect] for a model, a metric button for a metric). *)
Theorem form_lists_distinct (actions : list Home.Action) :
  let st := foldl Home.act Home.initialForm actions in
  NoDup (Home.selectedModels st)
  ∧ NoDup (Home.orderedMetrics st)
  ∧ (∀ m, m ∈ Home.selectedModels st → Home.SelectModel m ∈ actions)
  ∧ (∀ m, m ∈ Home.orderedMetrics st → Home.ToggleMetric m ∈ actions).
Proof. apply form_invariant. Qed.

(** ** Issues raised at the boundary and what the form shows of them *)

Section Issues.
Import Zod Api.
Variable errorMap : ZodIssueCode → JsValue → string.

Local Abbreviation enumIssue := (enumIssueOf errorMap).

Lemma enumIssueOf_at (values : list string) (p : list PathSegment) :
  ∀ i s, (s ∈ values → enumIssue values p i s = None)
         ∧ (s ∉ values → ∃ e, enumIssue values p i s = Some e).
Proof.
  intros i s. unfold enumIssueOf. case_bool_decide; split; try done.
  intros _. by eexists.
Qed.

Lemma parseItems_enum (values : list string) (p : list PathSegment)
    (l : list string) :
  ∀ start,
    parseItems (λ i x, _parse errorMap (ZodEnum values) (p ++ [index i]) x)
      start (JsString <$> l)
    = omap id (imap (λ i s, enumIssue values p (start + i) s) l).
Proof.
  induction l as [|s l IH]; intros start; [done|].
  cbn [fmap list_fmap parseItems]. rewrite IH, imap_cons.
  cbn [omap list_omap]. rewrite Nat.add_0_r.
  rewrite (imap_ext ((λ i s, enumIssue values p (start + i) s) ∘ S)
             (λ i s, enumIssue values p (S start + i) s))
    by (intros i x _; cbn; f_equal; lia).
  unfold id, enumIssueOf at 2. cbn [_parse].
  by case_bool_decide.
Qed.

Lemma parse_enum_strings (values : list string) (p : list PathSegment)
    (l : list string) :
  _parse errorMap (ZodArray (ZodEnum values)) p (JsArray (JsString <$> l))
  = omap id (imap (enumIssue values p) l).
Proof.
  change (_parse errorMap (ZodArray (ZodEnum values)) p
            (JsArray (JsString <$> l)))
    with (parseItems
            (λ i x, _parse errorMap (ZodEnum values) (p ++ [index i]) x)
            0 (JsString <$> l)).
  by rewrite parseItems_enum.
Qed.

Lemma enum_issue_elem (values : list string) (p : list PathSegment)
    (l : list string) (e : ZodIssue) :
  e ∈ omap id (imap (enumIssue values p) l)
  ↔ ∃ i s, l !! i = Some s ∧ (s ∉ values)
      ∧ e = {| code := invalid_enum_value; path := p ++ [index i];
               message := errorMap invalid_enum_value (JsString s) |}.
Proof.
  rewrite list_elem_of_omap. split.
  - intros (o & (i & s & -> & Hs)%elem_of_lookup_imap & Ho).
    exists i, s. unfold enumIssueOf in Ho. cbn in Ho.
    case_bool_decide; [done|]. by simplify_eq.
  - intros (i & s & Hs & Hnot & ->). eexists. split.
    + apply elem_of_lookup_imap. by exists i, s.
    + unfold enumIssueOf. by rewrite bool_decide_eq_false_2.
Qed.

(** The issues of the object [handleSubmit] builds. *)
Lemma parse_requestObject (prompt : string) (models metrics : list string) :
  _parse errorMap evaluateRequest [] (Home.requestObject prompt models metrics)
  = (if (String.length prompt <? 5)%nat
     then [ {| code := too_small; path := [key "prompt"];
               message := promptMessage |} ]
     else [])
    ++ omap id (imap (enumIssue modelValues [key "models"]) models)
    ++ omap id (imap (enumIssue metricValues [key "metrics"]) metrics).
Proof.
  unfold Home.requestObject. rewrite parse_evaluateRequest_object.
  change (getField "prompt" _) with (JsString prompt).
  change (getField "models" _) with (JsArray (JsString <$> models)).
  change (getField "metrics" _) with (JsArray (JsString <$> metrics)).
  by rewrite !parse_enum_strings.
Qed.

(** [fieldErrors] keeps, for each joined path, the message of the last issue
    on that path. *)
Lemma fieldErrors_lookup (found : list ZodIssue) (k : string) :
  fieldErrors found !! k
  = message <$> last (filter (λ e, joinPath (path e) = k) found).
Proof.
  unfold fieldErrors.
  induction found as [|e found IH] using rev_ind; [done|].
  rewrite foldl_app, filter_app. cbn [foldl].
  destruct (decide (joinPath (path e) = k)) as [Hk|Hk].
  - rewrite Hk, lookup_insert_eq.
    rewrite (filter_cons_True _ e []), filter_nil by done.
    by rewrite last_snoc.
  - rewrite lookup_insert_ne by done.
    rewrite (filter_cons_False _ e []), filter_nil by done.
    by rewrite app_nil_r.
Qed.

Lemma fieldErrors_lookup_is_Some (found : list ZodIssue) (k : string) :
  is_Some (fieldErrors found !! k)
  ↔ ∃ e, e ∈ found ∧ joinPath (path e) = k.
Proof.
  rewrite fieldErrors_lookup, fmap_is_Some, last_is_Some. split.
  - destruct (filter _ found) as [|e rest] eqn:Hf; [done|]. intros _.
    assert (He : e ∈ filter (λ e, joinPath (path e) = k) found)
      by (rewrite Hf; left).
    apply list_elem_of_filter in He as [Hk He]. by exists e.
  - intros (e & He & Hk) Hnil.
    by apply (filter_nil_not_elem_of _ _ e Hnil Hk).
Qed.

Lemma fieldErrors_lookup_None (found : list ZodIssue) (k : string) :
  fieldErrors found !! k = None ↔ ∀ e, e ∈ found → joinPath (path e) ≠ k.
Proof.
  rewrite eq_None_not_Some, fieldErrors_lookup_is_Some. split.
  - intros Hno e He Hk. apply Hno. by exists e.
  - intros Hall (e & He & Hk). by apply (Hall e).
Qed.

Lemma joinPath_element (field : string) (i : nat) :
  joinPath [key field; index i] = field +:+ "." +:+ pretty i.
Proof. reflexivity. Qed.

Lemma element_key_inj (field : string) (i j : nat) :
  field +:+ "." +:+ pretty i = field +:+ "." +:+ pretty j → i = j.
Proof.
  intros H. apply (inj (String.append field)) in H.
  apply (inj (String.append ".")) in H. by apply (inj pretty) in H.
Qed.

(** Where each issue of the submitted object is filed. *)
Lemma request_issue_keys (prompt : string) (models metrics : list string)
    (e : ZodIssue) :
  e ∈ _parse errorMap evaluateRequest []
        (Home.requestObject prompt models metrics) →
  (joinPath (path e) = "prompt" ∧ message e = promptMessage
   ∧ (String.length prompt < 5)%nat)
  ∨ (∃ i m, models !! i = Some m ∧ (m ∉ modelValues)
            ∧ joinPath (path e) = "models." +:+ pretty i)
  ∨ (∃ i m, metrics !! i = Some m ∧ (m ∉ metricValues)
            ∧ joinPath (path e) = "metrics." +:+ pretty i).
Proof.
  rewrite parse_requestObject.
  intros [He|[He|He]%elem_of_app]%elem_of_app.
  - left. destruct (Nat.ltb_spec (String.length prompt) 5); [|by inversion He].
    apply list_elem_of_singleton in He as ->. done.
  - right; left. apply enum_issue_elem in He as (i & m & Hm & Hnot & ->).
    by exists i, m.
  - right; right. apply enum_issue_elem in He as (i & m & Hm & Hnot & ->).
    by exists i, m.
Qed.

End Issues.

(** X6. Checking an array of strings against an enumeration raises exactly one
    issue per element that is not in the enumeration, in the order of the
    elements, each under the path of the array extended with the element's
    index; so there are as many issues as unknown elements. *)
Theorem enum_array_issues
    (errorMap : Zod.ZodIssueCode → Zod.JsValue → string)
    (values : list string) (p : list Zod.PathSegment) (l : list string) :
  Zod._parse errorMap (Zod.ZodArray (Zod.ZodEnum values)) p
    (Zod.JsArray (Zod.JsString <$> l))
  = omap id (imap (enumIssueOf errorMap values p) l)
  ∧ length (Zod._parse errorMap (Zod.ZodArray (Zod.ZodEnum values)) p
              (Zod.JsArray (Zod.JsString <$> l)))
    = length (filter (λ s, s ∉ values) l).
Proof.
  rewrite parse_enum_strings. split; [done|].
  generalize (enumIssueOf_at errorMap values p).
  generalize (enumIssueOf errorMap values p). intros f Hf.
  revert f Hf. induction l as [|s l IH]; intros f Hf; [done|].
  rewrite imap_cons. cbn [omap list_omap]. unfold id at 1.
  destruct (decide (s ∈ values)) as [Hs|Hs].
  - rewrite (proj1 (Hf 0%nat s) Hs), filter_cons_False
      by (intros Hn; by apply Hn).
    apply IH. intros i x. apply (Hf (S i) x).
  - destruct (proj2 (Hf 0%nat s) Hs) as [e ->].
    rewrite filter_cons_True by done. cbn [length]. f_equal.
    apply IH. intros i x. apply (Hf (S i) x).
Qed.

(** X7. What [evaluateRequest.safeParse] accepts, for any value: exactly the
    objects whose prompt is a string of at least 5 characters and whose models
    and metrics are arrays of known identifiers.  Fields other than these
    three play no part, and a value that is not an object is rejected with a
    single [invalid_type] issue at the root. *)
Theorem request_acceptance
    (errorMap : Zod.ZodIssueCode → Zod.JsValue → string) (req : Zod.JsValue) :
  (Zod.success (Zod.safeParse errorMap Api.evaluateRequest req) = true
   ↔ ∃ fields s,
       req = Zod.JsObject fields
       ∧ Zod.getField "prompt" fields = Zod.JsString s
       ∧ (5 ≤ String.length s)%nat
       ∧ knownList Api.modelValues (Zod.getField "models" fields)
       ∧ knownList Api.metricValues (Zod.getField "metrics" fields))
  ∧ (∀ fields fields',
       req = Zod.JsObject fields →
       Zod.getField "prompt" fields = Zod.getField "prompt" fields' →
       Zod.getField "models" fields = Zod.getField "models" fields' →
       Zod.getField "metrics" fields = Zod.getField "metrics" fields' →
       Zod.safeParse errorMap Api.evaluateRequest (Zod.JsObject fields')
       = Zod.safeParse errorMap Api.evaluateRequest req)
  ∧ ((∀ fields, req ≠ Zod.JsObject fields) →
     Zod.issues (Zod.safeParse errorMap Api.evaluateRequest req)
     = [ {| Zod.code := Zod.invalid_type; Zod.path := [];
            Zod.message := errorMap Zod.invalid_type req |} ]).
Proof.
  split_and!.
  - split.
    + intros Hok. destruct req as [| | | | | |fields];
        try (rewrite rejected_non_object in Hok; done).
      apply accepted_iff in Hok as ((s & Hs & Hlen) & Hm & Hx).
      by exists fields, s.
    + intros (fields & s & -> & Hs & Hlen & Hm & Hx). apply accepted_iff.
      split_and!; [by exists s|done|done].
  - intros fields fields' -> Hp Hm Hx. unfold Zod.safeParse.
    rewrite !parse_evaluateRequest_object. by rewrite Hp, Hm, Hx.
  - intros Hno. destruct req; try done. by destruct (Hno fields).
Qed.

Lemma request_acceptance_witness :
  Zod.safeParse Zod.fallbackErrorMap Api.evaluateRequest
    (Zod.JsObject
       [ ("prompt", Zod.JsString "Sort a list");
         ("models", Zod.JsArray [Zod.JsString "gemini-2.5-flash"]);
         ("metrics", Zod.JsArray []) ])
  = Zod.safeParse Zod.fallbackErrorMap Api.evaluateRequest
      (Zod.JsObject
         [ ("temperature", Zod.JsNumber (Q2Qc 0.2));
           ("metrics", Zod.JsArray []);
           ("prompt", Zod.JsString "Sort a list");
           ("models", Zod.JsArray [Zod.JsString "gemini-2.5-flash"]) ]).
Proof.
  exact (proj1 (proj2 (request_acceptance Zod.fallbackErrorMap
    (Zod.JsObject
       [ ("temperature", Zod.JsNumber (Q2Qc 0.2));
         ("metrics", Zod.JsArray []);
         ("prompt", Zod.JsString "Sort a list");
         ("models", Zod.JsArray [Zod.JsString "gemini-2.5-flash"]) ])))
    _ [ ("prompt", Zod.JsString "Sort a list");
        ("models", Zod.JsArray [Zod.JsString "gemini-2.5-flash"]);
        ("metrics", Zod.JsArray []) ]
    eq_refl eq_refl eq_refl eq_refl).
Defined.

(** X8. With the form's own controls only the prompt can fail validation:
    after any sequence of clicks on offered options, [handleSubmit] sends the
    request exactly when the trimmed prompt has at least 5 characters, and
    otherwise shows the prompt message and nothing else; [isLoading] always
    ends false, and a failed send shows the general message. *)
Theorem handleSubmit_offered
    (trim : string → string)
    (errorMap : Zod.ZodIssueCode → Zod.JsValue → string)
    (responseOk : bool) (input : string) (actions : list Home.Action) :
  Forall offered actions →
  let st := foldl Home.act Home.initialForm actions in
  let out := Home.handleSubmit trim errorMap responseOk input st in
  Home.isLoading out = false
  ∧ ((5 ≤ String.length (trim input))%nat →
     Home.sent out
     = Some (Home.requestObject (trim input) (Home.selectedModels st)
               (Home.orderedMetrics st))
     ∧ Home.errors out
       = if responseOk then ∅ else {[ "general" := Home.generalMessage ]})
  ∧ ((String.length (trim input) < 5)%nat →
     Home.sent out = None
     ∧ Home.errors out = {[ "prompt" := Api.promptMessage ]}).
Proof.
  intros Hoff st out.
  destruct (form_invariant actions) as (_ & _ & Hms & Hxs). fold st in Hms, Hxs.
  assert (Hm : Forall (.∈ Api.modelValues) (Home.selectedModels st)).
  { apply Forall_forall. intros m Hin.
    exact (proj1 (Forall_forall offered actions) Hoff _ (Hms m Hin)). }
  assert (Hx : Forall (.∈ Api.metricValues) (Home.orderedMetrics st)).
  { apply Forall_forall. intros m Hin.
    exact (proj1 (Forall_forall offered actions) Hoff _ (Hxs m Hin)). }
  assert (Hissues :
    Zod._parse errorMap Api.evaluateRequest []
      (Home.requestObject (trim input) (Home.selectedModels st)
         (Home.orderedMetrics st))
    = if (String.length (trim input) <? 5)%nat
      then [ {| Zod.code := Zod.too_small; Zod.path := [Zod.key "prompt"];
                Zod.message := Api.promptMessage |} ]
      else []).
  { rewrite parse_requestObject.
    rewrite <- !parse_enum_strings.
    rewrite (proj2 (parse_enum_array_nil errorMap _ _ _))
      by (by exists (Home.selectedModels st)).
    rewrite (proj2 (parse_enum_array_nil errorMap _ _ _))
      by (by exists (Home.orderedMetrics st)).
    by rewrite !app_nil_r. }
  subst out. unfold Home.handleSubmit, Zod.safeParse.
  cbn [Zod.success Zod.issues]. rewrite Hissues.
  destruct (Nat.ltb_spec (String.length (trim input)) 5) as [Hlt|Hge].
  - cbn. split_and!; [done|lia|]. intros _. split; [done|].
    unfold Api.fieldErrors. cbn. apply insert_empty.
  - cbn. split_and!; [done| |lia]. intros _. done.
Qed.

Lemma handleSubmit_offered_witness :
  Home.sent
    (Home.handleSubmit (λ s, s) Zod.fallbackErrorMap true "Sort a list"
       (foldl Home.act Home.initialForm
          [ Home.SelectModel "gemini-2.5-pro";
            Home.SelectModel "gemini-2.5-flash";
            Home.ToggleMetric "readability";
            Home.RemoveModel "gemini-2.5-pro" ]))
  = Some (Home.requestObject "Sort a list" ["gemini-2.5-flash"]
            ["readability"]).
Proof.
  refine (proj1 (proj1 (proj2 (handleSubmit_offered (λ s, s)
    Zod.fallbackErrorMap true "Sort a list"
    [ Home.SelectModel "gemini-2.5-pro";
      Home.SelectModel "gemini-2.5-flash";
      Home.ToggleMetric "readability";
      Home.RemoveModel "gemini-2.5-pro" ] _)) _)).
  - repeat (apply List.Forall_cons;
            [unfold offered; apply (bool_decide_unpack _); vm_compute;
             exact I|]).
    apply List.Forall_nil.
  - simpl. lia.
Defined.

Section SubmitErrors.
Import Zod Api.

Lemma filter_none {A} (P : A → Prop) `{∀ x, Decision (P x)} (l : list A) :
  (∀ x, x ∈ l → ¬ P x) → filter P l = [].
Proof.
  induction l as [|x l IH]; intros Hall; [done|].
  rewrite filter_cons_False by (apply Hall; left).
  apply IH. intros y Hy. apply Hall. by right.
Qed.

Lemma knownList_strings (values : list string) (l : list string) :
  knownList values (JsArray (JsString <$> l)) ↔ Forall (.∈ values) l.
Proof.
  split.
  - intros (l' & Heq & Hall). injection Heq as Heq.
    assert (Hinj : Inj (=) (=) JsString) by (by intros ?? [=]).
    apply (inj (fmap JsString)) in Heq. by subst.
  - intros Hall. by exists l.
Qed.

End SubmitErrors.

(** X9. What [handleSubmit] puts into [errors] when validation fails, for any
    content of the two lists: the prompt message under ["prompt"] exactly when
    the trimmed prompt is shorter than 5 characters, and an entry under
    ["models.i"] (or ["metrics.i"]) exactly for the positions [i] holding an
    unknown identifier.  Nothing is ever filed under ["models"], ["metrics"]
    or ["general"], and nothing is sent. *)
Theorem handleSubmit_field_errors
    (trim : string → string)
    (errorMap : Zod.ZodIssueCode → Zod.JsValue → string)
    (responseOk : bool) (input : string) (st : Home.FormState) :
  let out := Home.handleSubmit trim errorMap responseOk input st in
  (is_Some (Home.sent out)
   ↔ (5 ≤ String.length (trim input))%nat
     ∧ Forall (.∈ Api.modelValues) (Home.selectedModels st)
     ∧ Forall (.∈ Api.metricValues) (Home.orderedMetrics st))
  ∧ (Home.sent out = None →
     (Home.errors out !! "prompt" = Some Api.promptMessage
      ↔ (String.length (trim input) < 5)%nat)
     ∧ (∀ i, is_Some (Home.errors out !! ("models." +:+ pretty i))
             ↔ ∃ m, Home.selectedModels st !! i = Some m
                    ∧ (m ∉ Api.modelValues))
     ∧ (∀ i, is_Some (Home.errors out !! ("metrics." +:+ pretty i))
             ↔ ∃ m, Home.orderedMetrics st !! i = Some m
                    ∧ (m ∉ Api.metricValues))
     ∧ Home.errors out !! "models" = None
     ∧ Home.errors out !! "metrics" = None
     ∧ Home.errors out !! "general" = None).
Proof.
  intros out. subst out. unfold Home.handleSubmit. cbv zeta.
  set (req := Home.requestObject (trim input) (Home.selectedModels st)
                (Home.orderedMetrics st)).
  assert (Hok : Zod.success (Zod.safeParse errorMap Api.evaluateRequest req)
                = true
                ↔ (5 ≤ String.length (trim input))%nat
                  ∧ Forall (.∈ Api.modelValues) (Home.selectedModels st)
                  ∧ Forall (.∈ Api.metricValues) (Home.orderedMetrics st)).
  { subst req. unfold Home.requestObject. rewrite accepted_iff.
    change (Zod.getField "prompt" _) with (Zod.JsString (trim input)).
    change (Zod.getField "models" _)
      with (Zod.JsArray (Zod.JsString <$> Home.selectedModels st)).
    change (Zod.getField "metrics" _)
      with (Zod.JsArray (Zod.JsString <$> Home.orderedMetrics st)).
    rewrite !knownList_strings. split.
    - intros ((s & [= <-] & Hlen) & Hm & Hx). done.
    - intros (Hlen & Hm & Hx). split; [by eexists|done]. }
  change (Zod.issues (Zod.safeParse errorMap Api.evaluateRequest req))
    with (Zod._parse errorMap Api.evaluateRequest [] req).
  destruct (Zod.success (Zod.safeParse errorMap Api.evaluateRequest req))
    eqn:Hs; cbn [negb Home.sent Home.errors].
  { split; [|done]. split; [intros _; by apply Hok|by eexists]. }
  split.
  { split; [by intros [? ?]|]. intros H. apply Hok in H. done. }
  intros _.
  pose proof (request_issue_keys errorMap (trim input)
                (Home.selectedModels st) (Home.orderedMetrics st)) as Hkeys.
  fold req in Hkeys.
  assert (Hfound := parse_requestObject errorMap (trim input)
                      (Home.selectedModels st) (Home.orderedMetrics st)).
  fold req in Hfound.
  split_and!.
  - split.
    + intros Hp.
      assert (is_Some (Api.fieldErrors
                (Zod._parse errorMap Api.evaluateRequest [] req) !! "prompt"))
        as (e & He & Hk)%fieldErrors_lookup_is_Some by (by eexists).
      destruct (Hkeys e He) as [(_ & _ & Hlen)|[(i & m & _ & _ & Hkey)
                                               |(i & m & _ & _ & Hkey)]];
        [done| |]; rewrite Hkey in Hk; cbv [String.append] in Hk;
        discriminate Hk.
    + intros Hlen. rewrite fieldErrors_lookup, Hfound.
      destruct (Nat.ltb_spec (String.length (trim input)) 5); [|lia].
      rewrite !filter_app, filter_cons_True, filter_nil by done.
      rewrite !filter_none; [done| |].
      * intros e (i & m & _ & _ & ->)%enum_issue_elem Hk.
        cbv [Zod.path Api.joinPath Api.segmentText String.append] in Hk.
        discriminate Hk.
      * intros e (i & m & _ & _ & ->)%enum_issue_elem Hk.
        cbv [Zod.path Api.joinPath Api.segmentText String.append] in Hk.
        discriminate Hk.
  - intros i. rewrite fieldErrors_lookup_is_Some. split.
    + intros (e & He & Hk).
      destruct (Hkeys e He) as [(Hkey & _)|[(j & m & Hm & Hnot & Hkey)
                                           |(j & m & _ & _ & Hkey)]];
        rewrite Hkey in Hk.
      * cbv [String.append] in Hk. discriminate Hk.
      * apply (inj (String.append "models.")) in Hk.
        apply (inj pretty) in Hk. subst. by exists m.
      * cbv [String.append] in Hk. discriminate Hk.
    + intros (m & Hm & Hnot).
      exists {| Zod.code := Zod.invalid_enum_value;
                Zod.path := [Zod.key "models"] ++ [Zod.index i];
                Zod.message :=
                  errorMap Zod.invalid_enum_value (Zod.JsString m) |}.
      split; [|reflexivity].
      rewrite Hfound. apply elem_of_app. right. apply elem_of_app. left.
      apply enum_issue_elem. by exists i, m.
  - intros i. rewrite fieldErrors_lookup_is_Some. split.
    + intros (e & He & Hk).
      destruct (Hkeys e He) as [(Hkey & _)|[(j & m & _ & _ & Hkey)
                                           |(j & m & Hm & Hnot & Hkey)]];
        rewrite Hkey in Hk.
      * cbv [String.append] in Hk. discriminate Hk.
      * cbv [String.append] in Hk. discriminate Hk.
      * apply (inj (String.append "metrics.")) in Hk.
        apply (inj pretty) in Hk. subst. by exists m.
    + intros (m & Hm & Hnot).
      exists {| Zod.code := Zod.invalid_enum_value;
                Zod.path := [Zod.key "metrics"] ++ [Zod.index i];
                Zod.message :=
                  errorMap Zod.invalid_enum_value (Zod.JsString m) |}.
      split; [|reflexivity].
      rewrite Hfound. apply elem_of_app. right. apply elem_of_app. right.
      apply enum_issue_elem. by exists i, m.
  - apply fieldErrors_lookup_None. intros e He Hk.
    destruct (Hkeys e He) as [(Hkey & _)|[(j & m & _ & _ & Hkey)
                                         |(j & m & _ & _ & Hkey)]];
      rewrite Hkey in Hk; cbv [String.append] in Hk; discriminate Hk.
  - apply fieldErrors_lookup_None. intros e He Hk.
    destruct (Hkeys e He) as [(Hkey & _)|[(j & m & _ & _ & Hkey)
                                         |(j & m & _ & _ & Hkey)]];
      rewrite Hkey in Hk; cbv [String.append] in Hk; discriminate Hk.
  - apply fieldErrors_lookup_None. intros e He Hk.
    destruct (Hkeys e He) as [(Hkey & _)|[(j & m & _ & _ & Hkey)
                                         |(j & m & _ & _ & Hkey)]];
      rewrite Hkey in Hk; cbv [String.append] in Hk; discriminate Hk.
Qed.

(** ** The reducer over whole event sequences *)

Section ReducerInvariants.
Import ResultsPage.
Variable numberToString : number → string.

Lemma currentResult_entries (prev : ResultsObject) m r :
  entries prev !! m = Some r → currentResult prev m = Some (FoundResult r).
Proof. intros H. unfold currentResult. by rewrite H. Qed.

Lemma inherited_FoundResult replaced m r :
  inherited replaced m = Some (FoundResult r) →
  replaced = true ∧ m = "__proto__" ∧ r = pendingEntry "__proto__".
Proof.
  unfold inherited. destruct replaced;
    repeat (case_decide || case_bool_decide); naive_solver.
Qed.

Lemma inherited_FoundOther replaced m text :
  inherited replaced m = Some (FoundOther text) →
  m ∈ objectPrototypeNames ∨ (replaced = true ∧ (m = "model" ∨ m = "status")).
Proof.
  unfold inherited. destruct replaced;
    repeat (case_decide || case_bool_decide); naive_solver.
Qed.

Lemma inherited_FoundPartial replaced m p :
  inherited replaced m ≠ Some (FoundPartial p).
Proof.
  unfold inherited. destruct replaced;
    repeat (case_decide || case_bool_decide); naive_solver.
Qed.

Lemma currentResult_FoundResult (prev : ResultsObject) m r :
  currentResult prev m = Some (FoundResult r) →
  entries prev !! m = Some r
  ∨ (entries prev !! m = None ∧ prototypeReplaced prev = true
     ∧ m = "__proto__" ∧ r = pendingEntry "__proto__").
Proof.
  unfold currentResult. destruct (entries prev !! m) as [r0|]; [naive_solver|].
  destruct (partials prev !! m) as [p|]; [done|].
  intros H%inherited_FoundResult. destruct H as (? & ? & ?). by right.
Qed.

Lemma currentResult_FoundPartial (prev : ResultsObject) m p :
  currentResult prev m = Some (FoundPartial p) → partials prev !! m = Some p.
Proof.
  unfold currentResult. destruct (entries prev !! m) as [r0|]; [done|].
  destruct (partials prev !! m) as [p0|]; [naive_solver|].
  intros H. by destruct (inherited_FoundPartial _ _ _ H).
Qed.

Lemma currentResult_FoundOther (prev : ResultsObject) m text :
  currentResult prev m = Some (FoundOther text) →
  entries prev !! m = None ∧ partials prev !! m = None
  ∧ (m ∈ objectPrototypeNames
     ∨ (prototypeReplaced prev = true ∧ (m = "model" ∨ m = "status"))).
Proof.
  unfold currentResult. destruct (entries prev !! m) as [r0|]; [done|].
  destruct (partials prev !! m) as [p0|]; [done|].
  intros H%inherited_FoundOther. by split_and!.
Qed.

Lemma updateResult_entries m f g (prev : ResultsObject) k :
  entries (updateResult m f g prev) !! k
  = if decide (k = m) then
      match currentResult prev m with
      | Some (FoundResult r) => Some (f r)
      | _ => entries prev !! m
      end
    else entries prev !! k.
Proof.
  unfold updateResult. case_decide as Hk.
  - subst k. destruct (currentResult prev m) as [[r|p|text]|];
      cbn [entries]; [by rewrite lookup_insert_eq|done..].
  - destruct (currentResult prev m) as [[r|p|text]|];
      cbn [entries]; [by rewrite lookup_insert_ne|done..].
Qed.

Lemma updateResult_partials m f g (prev : ResultsObject) k :
  partials (updateResult m f g prev) !! k
  = if decide (k = m) then
      match currentResult prev m with
      | Some (FoundPartial p) => Some (g p)
      | Some (FoundOther text) => Some (g (partialOf (inl text)))
      | _ => partials prev !! m
      end
    else partials prev !! k.
Proof.
  unfold updateResult. case_decide as Hk.
  - subst k. destruct (currentResult prev m) as [[r|p|text]|];
      cbn [partials]; [done|by rewrite lookup_insert_eq..|done].
  - destruct (currentResult prev m) as [[r|p|text]|];
      cbn [partials]; [done|by rewrite lookup_insert_ne..|done].
Qed.

Lemma updateResult_prototype m f g (prev : ResultsObject) :
  prototypeReplaced (updateResult m f g prev)
  = match currentResult prev m with
    | Some _ => false
    | None => prototypeReplaced prev
    end.
Proof.
  unfold updateResult. by destruct (currentResult prev m) as [[r|p|text]|].
Qed.

(** Only under the names ["__proto__"], ["model"] and ["status"] does a
    replaced prototype yield something else than the ordinary one. *)
Lemma inherited_ordinary m :
  m ∉ ["__proto__"; "model"; "status"] → inherited true m = inherited false m.
Proof.
  intros Hm. destruct (decide (m = "code")) as [->|Hcode].
  - vm_compute. reflexivity.
  - unfold inherited.
    by rewrite !decide_False
      by first [exact Hcode
               |intros ->; destruct Hm; apply (bool_decide_unpack _);
                vm_compute; exact I].
Qed.

(** What [prev[m1]] finds is not affected by an update under another key,
    unless the update takes a replaced prototype away from under one of the
    three names. *)
Lemma currentResult_updateResult m1 m2 f g (prev : ResultsObject) :
  m1 ≠ m2 →
  prototypeReplaced prev = false ∨ (m1 ∉ ["__proto__"; "model"; "status"]) →
  currentResult (updateResult m2 f g prev) m1 = currentResult prev m1.
Proof.
  intros Hne Hcond. unfold currentResult.
  rewrite updateResult_entries, updateResult_partials, updateResult_prototype.
  rewrite !decide_False by done.
  destruct (currentResult prev m2); [|done].
  assert (Hsame : inherited false m1 = inherited (prototypeReplaced prev) m1).
  { destruct Hcond as [->|Hm1]; [done|].
    destruct (prototypeReplaced prev); [|done].
    symmetry. by apply inherited_ordinary. }
  by rewrite Hsame.
Qed.

Lemma ResultsObject_eq (a b : ResultsObject) :
  entries a = entries b → partials a = partials b →
  prototypeReplaced a = prototypeReplaced b → a = b.
Proof. destruct a, b; cbn; by intros -> -> ->. Qed.

Lemma updateResult_comm m1 m2 f1 g1 f2 g2 (prev : ResultsObject) :
  m1 ≠ m2 →
  prototypeReplaced prev = false
  ∨ ((m1 ∉ ["__proto__"; "model"; "status"])
     ∧ (m2 ∉ ["__proto__"; "model"; "status"])) →
  updateResult m1 f1 g1 (updateResult m2 f2 g2 prev)
  = updateResult m2 f2 g2 (updateResult m1 f1 g1 prev).
Proof.
  intros Hne Hcond.
  assert (H12 : currentResult (updateResult m2 f2 g2 prev) m1
                = currentResult prev m1).
  { apply currentResult_updateResult; [done|]. tauto. }
  assert (H21 : currentResult (updateResult m1 f1 g1 prev) m2
                = currentResult prev m2).
  { apply currentResult_updateResult; [done|]. tauto. }
  apply ResultsObject_eq.
  - apply map_eq. intros k. rewrite !updateResult_entries, H12, H21.
    repeat case_decide; subst; done.
  - apply map_eq. intros k. rewrite !updateResult_partials, H12, H21.
    repeat case_decide; subst; done.
  - rewrite !updateResult_prototype, H12, H21.
    by destruct (currentResult prev m1), (currentResult prev m2).
Qed.

(** Every event either leaves the results object alone or acts on it as one
    update under the key of its model, by functions of which the one for
    entries keeps the [model] field and extends the code. *)
Lemma handle_results_shape (event : StreamEvent.t) :
  (∃ m f g,
     eventModel event = Some m
     ∧ (∀ now st,
          resultsObject (handleStreamEvent numberToString now event st)
          = updateResult m f g (resultsObject st))
     ∧ (∀ r, ModelResult.model (f r) = ModelResult.model r)
     ∧ (∀ r, ∃ suffix,
          ModelResult.code (f r) = ModelResult.code r +:+ suffix))
  ∨ (∀ now st,
       resultsObject (handleStreamEvent numberToString now event st)
       = resultsObject st).
Proof.
  destruct event as [m|m c|m b t|m o ms ns|d rk| |msg model].
  - left.
    exists m, (λ cur, withStatus cur ModelStatus.processing),
      (λ cur, partialWithStatus cur ModelStatus.processing).
    split_and!; [done| |done|].
    + intros now st. apply resultsObject_setResults.
    + intros r. exists "". by rewrite append_empty_r.
  - left.
    exists m, (λ cur, withCode cur (ModelResult.code cur +:+ c)),
      (λ cur, partialWithChunk cur c).
    split_and!; [done| |done|].
    + intros now st. apply resultsObject_setResults.
    + intros r. by exists c.
  - left.
    exists m,
      (λ cur,
         withCompletion cur
           (if b then ModelStatus.complete else ModelStatus.error) t
           (if b then None else Some "Generation failed")),
      (λ cur,
         partialWithCompletion cur
           (if b then ModelStatus.complete else ModelStatus.error) t
           (if b then None else Some "Generation failed")).
    split_and!; [done| |done|].
    + intros now st. apply resultsObject_setResults.
    + intros r. exists "". by rewrite append_empty_r.
  - left.
    exists m,
      (λ cur,
         let '(ps, cs) := generateProsAndCons numberToString ms in
         withEvaluation cur o ms ps cs),
      (λ cur,
         let '(ps, cs) := generateProsAndCons numberToString ms in
         partialWithEvaluation cur o ms ps cs).
    split_and!; [done| | |].
    + intros now st. apply resultsObject_setResults.
    + intros r. by destruct (generateProsAndCons numberToString ms).
    + intros r. exists "". rewrite append_empty_r.
      by destruct (generateProsAndCons numberToString ms).
  - by right.
  - by right.
  - destruct model as [m|]; [destruct (decide (m = "")) as [->|Hm]|].
    + by right.
    + left.
      exists m, (λ cur, withError cur msg), (λ cur, partialWithError cur msg).
      split_and!; [done| |done|].
      * intros now st. cbn [handleStreamEvent truthy].
        rewrite decide_False by done.
        apply (resultsObject_setResults _ st).
      * intros r. exists "". by rewrite append_empty_r.
    + by right.
Qed.

Lemma handle_other_pieces now (event : StreamEvent.t) (st : State) :
  let st' := handleStreamEvent numberToString now event st in
  (∃ more, warnings st' = warnings st ++ more)
  ∧ (isComplete st = true → isComplete st' = true)
  ∧ (is_Some (error st) → is_Some (error st'))
  ∧ (is_Some (recommendation st) → is_Some (recommendation st')).
Proof.
  destruct event as [m|m c|m b t|m o ms ns|d rk| |msg model]; cbn;
    try (split_and!; [exists []; by rewrite app_nil_r|done..]).
  destruct (truthy model); cbn.
  - split_and!; [by eexists|done..].
  - split_and!; [exists []; by rewrite app_nil_r|done|by eexists|done].
Qed.

Lemma handleStreamEvents_snoc events now event (st : State) :
  handleStreamEvents numberToString (events ++ [(now, event)]) st
  = handleStreamEvent numberToString now event
      (handleStreamEvents numberToString events st).
Proof. unfold handleStreamEvents. by rewrite foldl_app. Qed.

(** One update keeps every own property, adds an entry only under
    ["__proto__"] and only from a replaced prototype, adds a partial entry
    only under an inherited name, never replaces the prototype, and keeps
    entries filed under their own [model] field. *)
Lemma updateResult_step m f g (prev : ResultsObject) :
  (∀ r, ModelResult.model (f r) = ModelResult.model r) →
  let next := updateResult m f g prev in
  (∀ k, is_Some (entries prev !! k) → is_Some (entries next !! k))
  ∧ (∀ k, is_Some (partials prev !! k) → is_Some (partials next !! k))
  ∧ (∀ k, is_Some (entries next !! k) →
       is_Some (entries prev !! k)
       ∨ (k = "__proto__" ∧ prototypeReplaced prev = true))
  ∧ (∀ k, is_Some (partials next !! k) →
       is_Some (partials prev !! k)
       ∨ k ∈ objectPrototypeNames
       ∨ (prototypeReplaced prev = true ∧ (k = "model" ∨ k = "status")))
  ∧ (prototypeReplaced next = true → prototypeReplaced prev = true)
  ∧ ((∀ k r, entries prev !! k = Some r → ModelResult.model r = k) →
     ∀ k r, entries next !! k = Some r → ModelResult.model r = k).
Proof.
  intros Hmodel next. subst next. split_and!.
  - intros k Hk. rewrite updateResult_entries. case_decide; [|done]. subst k.
    destruct (currentResult prev m) as [[r|p|text]|]; by eauto.
  - intros k Hk. rewrite updateResult_partials. case_decide; [|done]. subst k.
    destruct (currentResult prev m) as [[r|p|text]|]; by eauto.
  - intros k. rewrite updateResult_entries. case_decide; [|by left]. subst k.
    destruct (currentResult prev m) as [[r|p|text]|] eqn:Hcur; try by left.
    intros _. apply currentResult_FoundResult in Hcur as [Hr|(_ & Hp & -> & _)].
    + left. by eexists.
    + by right.
  - intros k. rewrite updateResult_partials. case_decide; [|by left]. subst k.
    destruct (currentResult prev m) as [[r|p|text]|] eqn:Hcur; try by left.
    + intros _. left. apply currentResult_FoundPartial in Hcur. by eexists.
    + intros _. right. by apply currentResult_FoundOther in Hcur as (_ & _ & H).
  - rewrite updateResult_prototype.
    by destruct (currentResult prev m).
  - intros Hkey k r. rewrite updateResult_entries.
    case_decide as Hk; [|by apply Hkey]. subst k.
    destruct (currentResult prev m) as [[r0|p|text]|] eqn:Hcur;
      try by apply Hkey.
    intros [= <-]. rewrite Hmodel.
    apply currentResult_FoundResult in Hcur as [Hr|(_ & _ & -> & ->)].
    + by eapply Hkey.
    + done.
Qed.

Lemma handleStreamEvents_objects events (st : State) :
  let final := handleStreamEvents numberToString events st in
  (∀ k, is_Some (results st !! k) → is_Some (results final !! k))
  ∧ (∀ k, is_Some (strays st !! k) → is_Some (strays final !! k))
  ∧ (∀ k, is_Some (results final !! k) →
       is_Some (results st !! k)
       ∨ (k = "__proto__" ∧ protoReplaced st = true))
  ∧ (∀ k, is_Some (strays final !! k) →
       is_Some (strays st !! k)
       ∨ k ∈ objectPrototypeNames
       ∨ (protoReplaced st = true ∧ (k = "model" ∨ k = "status")))
  ∧ (protoReplaced final = true → protoReplaced st = true)
  ∧ ((∀ k r, results st !! k = Some r → ModelResult.model r = k) →
     ∀ k r, results final !! k = Some r → ModelResult.model r = k).
Proof.
  induction events as [|[now event] events IH] using rev_ind.
  - cbn. split_and!; auto.
  - cbn zeta in *. rewrite handleStreamEvents_snoc.
    set (mid := handleStreamEvents numberToString events st) in *.
    destruct IH as (IH1 & IH2 & IH3 & IH4 & IH5 & IH6).
    destruct (handle_results_shape event)
      as [(m & f & g & _ & Hshape & Hmodel & _)|Hsame].
    + pose proof (Hshape now mid) as Hobj.
      destruct (updateResult_step m f g (resultsObject mid) Hmodel)
        as (S1 & S2 & S3 & S4 & S5 & S6).
      rewrite <- Hobj in S1, S2, S3, S4, S5, S6.
      cbn [resultsObject entries partials prototypeReplaced]
        in S1, S2, S3, S4, S5, S6.
      split_and!.
      * intros k Hk. by apply S1, IH1.
      * intros k Hk. by apply S2, IH2.
      * intros k Hk. destruct (S3 k Hk) as [Hmid|[-> Hp]];
          [by apply IH3|]. right. split; [done|by apply IH5].
      * intros k Hk. destruct (S4 k Hk) as [Hmid|[Hn|[Hp Hms]]];
          [by apply IH4|by right; left|].
        right. right. split; [by apply IH5|done].
      * intros Hp. by apply IH5, S5.
      * intros Hkey. by apply S6, IH6.
    + pose proof (Hsame now mid) as Hobj.
      assert (Hr : results (handleStreamEvent numberToString now event mid)
                   = results mid)
        by exact (f_equal entries Hobj).
      assert (Hs : strays (handleStreamEvent numberToString now event mid)
                   = strays mid)
        by exact (f_equal partials Hobj).
      assert (Hp : protoReplaced (handleStreamEvent numberToString now event mid)
                   = protoReplaced mid)
        by exact (f_equal prototypeReplaced Hobj).
      rewrite Hr, Hs, Hp. split_and!; auto.
Qed.

Lemma initialResults_shape (models : list Model) :
  (∀ m, entries (initialResults models) !! m
        = if decide (m ∈ models ∧ m ≠ "__proto__")
          then Some (pendingEntry m) else None)
  ∧ partials (initialResults models) = ∅
  ∧ (prototypeReplaced (initialResults models) = true
     ↔ "__proto__" ∈ models).
Proof.
  unfold initialResults.
  induction models as [|x models (IHe & IHp & IHr)] using rev_ind.
  - cbn. split_and!; [|done|].
    + intros m. rewrite decide_False; [apply lookup_empty|].
      intros [H%elem_of_nil _]. done.
    + split; [done|by intros H%elem_of_nil].
  - rewrite foldl_app. cbn [foldl].
    case_decide as Hx; [subst x|];
      cbn [entries partials prototypeReplaced].
    + split_and!; [|exact IHp|].
      * intros m. rewrite IHe. apply decide_ext.
        rewrite elem_of_app, list_elem_of_singleton. tauto.
      * split; [intros _|done].
        rewrite elem_of_app, list_elem_of_singleton. by right.
    + split_and!; [|exact IHp|].
      * intros m. destruct (decide (m = x)) as [->|Hm].
        -- rewrite lookup_insert_eq, decide_True; [done|].
           split; [|done].
           rewrite elem_of_app, list_elem_of_singleton. by right.
        -- rewrite lookup_insert_ne, IHe by done. apply decide_ext.
           rewrite elem_of_app, list_elem_of_singleton. tauto.
      * rewrite IHr, elem_of_app, list_elem_of_singleton.
        intuition congruence.
Qed.

(** What [results[model]] finds at the start for a requested model. *)
Lemma initialResults_currentResult (models : list Model) (m : Model) :
  m ∈ models →
  currentResult (initialResults models) m = Some (FoundResult (pendingEntry m)).
Proof.
  intros Hin. destruct (initialResults_shape models) as (He & Hp & Hr).
  unfold currentResult. rewrite He, Hp.
  destruct (decide (m = "__proto__")) as [->|Hm].
  - rewrite decide_False by tauto. rewrite lookup_empty.
    by rewrite (proj2 Hr Hin).
  - by rewrite decide_True.
Qed.

Lemma resultsObject_initialState (models : list Model) :
  resultsObject (initialState models) = initialResults models.
Proof.
  unfold resultsObject, initialState; cbn. by destruct (initialResults models).
Qed.

Lemma updateResult_found m f g (prev : ResultsObject) r :
  currentResult prev m = Some (FoundResult r) →
  entries (updateResult m f g prev) !! m = Some (f r).
Proof.
  intros H. rewrite updateResult_entries, decide_True by done. by rewrite H.
Qed.

(** Folding chunk events, with the entry that results. *)
Lemma code_chunks_entry m (tchunks : list (number * string)) :
  ∀ st r,
    results st !! m = Some r →
    results (handleStreamEvents numberToString
               ((λ tc, (tc.1, StreamEvent.code_chunk m tc.2)) <$> tchunks)
               st) !! m
    = Some (withCode r (ModelResult.code r +:+ joinChunks (tchunks.*2))).
Proof.
  induction tchunks as [|[t c] tchunks IH]; intros st r Hr.
  - cbn. rewrite append_empty_r. by destruct r.
  - cbn [fmap list_fmap handleStreamEvents foldl fst snd].
    set (st1 := handleStreamEvent numberToString t
                  (StreamEvent.code_chunk m c) st).
    assert (H1 : results st1 !! m
                 = Some (withCode r (ModelResult.code r +:+ c))).
    { subst st1. cbn [handleStreamEvent setResults results].
      by rewrite (updateResult_lookup _ _ _ _ _ Hr). }
    fold (handleStreamEvents numberToString
            ((λ tc, (tc.1, StreamEvent.code_chunk m tc.2)) <$> tchunks) st1).
    rewrite (IH st1 _ H1). cbn [withCode ModelResult.code joinChunks foldr].
    fold (joinChunks (tchunks.*2)). by rewrite append_assoc.
Qed.

End ReducerInvariants.

(** X10. An [evaluation_result] event for a model that has an entry records
    the overall score and the metrics, and derives the pros and cons from the
    event's metrics with [generateProsAndCons]: the [notes] the event carries
    are not used.  Status, code, execution time and error text of the entry
    stay as they were. *)
Theorem evaluation_result_recorded
    (numberToString : number → string) (now : number)
    (st : ResultsPage.State) (m : Model) (r : ModelResult.t)
    (overall : number) (ms : EvaluationMetrics) (ns : Notes) :
  ResultsPage.results st !! m = Some r →
  let st' :=
    ResultsPage.handleStreamEvent numberToString now
      (StreamEvent.evaluation_result m overall ms ns) st in
  (∃ r',
     ResultsPage.results st' !! m = Some r'
     ∧ ModelResult.overallScore r' = Some overall
     ∧ ModelResult.metrics r' = Some ms
     ∧ ModelResult.pros r'
       = Some (ResultsPage.generateProsAndCons numberToString ms).1
     ∧ ModelResult.cons r'
       = Some (ResultsPage.generateProsAndCons numberToString ms).2
     ∧ ModelResult.status r' = ModelResult.status r
     ∧ ModelResult.code r' = ModelResult.code r
     ∧ ModelResult.executionTime r' = ModelResult.executionTime r
     ∧ ModelResult.error r' = ModelResult.error r)
  ∧ ∀ ns',
      ResultsPage.handleStreamEvent numberToString now
        (StreamEvent.evaluation_result m overall ms ns') st
      = st'.
Proof.
  intros Hr st'. subst st'. split; [|done].
  cbn [ResultsPage.handleStreamEvent ResultsPage.setResults ResultsPage.results].
  rewrite (updateResult_lookup _ _ _ _ _ Hr). eexists. split; [reflexivity|].
  by destruct (ResultsPage.generateProsAndCons numberToString ms).
Qed.

Lemma evaluation_result_recorded_witness :
  ModelResult.overallScore <$>
    ResultsPage.results
      (ResultsPage.handleStreamEvent (λ _, "7") (Q2Qc 0)
         (StreamEvent.evaluation_result "gemini-2.5-pro" (Q2Qc 7.5) []
            {| notes_pros := ["fast"]; notes_cons := [] |})
         (ResultsPage.initialState ["gemini-2.5-pro"]))
      !! "gemini-2.5-pro"
  = Some (Some (Q2Qc 7.5)).
Proof.
  assert (Hr : ResultsPage.results
                 (ResultsPage.initialState ["gemini-2.5-pro"])
                 !! "gemini-2.5-pro"
               = Some {| ModelResult.model := "gemini-2.5-pro";
                         ModelResult.status := ModelStatus.pending;
                         ModelResult.code := "";
                         ModelResult.executionTime := None;
                         ModelResult.overallScore := None;
                         ModelResult.metrics := None;
                         ModelResult.pros := None;
                         ModelResult.cons := None;
                         ModelResult.error := None |})
    by (vm_compute; reflexivity).
  destruct (proj1 (evaluation_result_recorded (λ _, "7") (Q2Qc 0) _
                     "gemini-2.5-pro" _ (Q2Qc 7.5) []
                     {| notes_pros := ["fast"]; notes_cons := [] |} Hr))
    as (r' & Hr' & Hscore & _).
  exact (eq_trans (f_equal (fmap ModelResult.overallScore) Hr')
                  (f_equal Some Hscore)).
Defined.

(** X11. No sequence of events removes an own property of the results
    object, and, if every entry is filed under its own [model] field, that
    stays so.  A property is added only under a name the object inherits
    from its prototype: an entry only under ["__proto__"] and only when the
    prototype had been replaced (["__proto__"] was requested), a partial
    entry only under a member of [Object.prototype] or, with the prototype
    replaced, under ["model"] or ["status"].  With the ordinary prototype the
    set of models with an entry stays the same. *)
Theorem events_keep_entries
    (numberToString : number → string)
    (events : list (number * StreamEvent.t)) (st : ResultsPage.State) :
  let final := ResultsPage.handleStreamEvents numberToString events st in
  dom (ResultsPage.results st) ⊆ dom (ResultsPage.results final)
  ∧ dom (ResultsPage.strays st) ⊆ dom (ResultsPage.strays final)
  ∧ (∀ k, k ∈ dom (ResultsPage.results final) →
       k ∈ dom (ResultsPage.results st)
       ∨ (k = "__proto__" ∧ ResultsPage.protoReplaced st = true))
  ∧ (∀ k, k ∈ dom (ResultsPage.strays final) →
       k ∈ dom (ResultsPage.strays st)
       ∨ k ∈ ResultsPage.objectPrototypeNames
       ∨ (ResultsPage.protoReplaced st = true
          ∧ (k = "model" ∨ k = "status")))
  ∧ (ResultsPage.protoReplaced st = false →
     dom (ResultsPage.results final) = dom (ResultsPage.results st))
  ∧ ((∀ k r, ResultsPage.results st !! k = Some r → ModelResult.model r = k) →
     ∀ k r, ResultsPage.results final !! k = Some r → ModelResult.model r = k).
Proof.
  intros final. subst final.
  destruct (handleStreamEvents_objects numberToString events st)
    as (H1 & H2 & H3 & H4 & _ & H6).
  split_and!.
  - intros k. rewrite !elem_of_dom. apply H1.
  - intros k. rewrite !elem_of_dom. apply H2.
  - intros k. rewrite !elem_of_dom. apply H3.
  - intros k. rewrite !elem_of_dom. apply H4.
  - intros Hp. apply set_eq. intros k. rewrite !elem_of_dom. split.
    + intros Hk. destruct (H3 k Hk) as [Hst|[_ Htrue]]; [done|].
      rewrite Hp in Htrue. discriminate Htrue.
    + apply H1.
  - exact H6.
Qed.


(** X13. Events of two different models can be handled in either order:
    the entries and the partial entries come out the same, provided the
    results object has the ordinary prototype or neither model is one of the
    names ["__proto__"], ["model"] and ["status"]. *)
Theorem events_of_different_models_commute
    (numberToString : number → string) (t1 t2 t1' t2' : number)
    (e1 e2 : StreamEvent.t) (m1 m2 : Model) (st : ResultsPage.State) :
  eventModel e1 = Some m1 → eventModel e2 = Some m2 → m1 ≠ m2 →
  ResultsPage.protoReplaced st = false
  ∨ ((m1 ∉ ["__proto__"; "model"; "status"])
     ∧ (m2 ∉ ["__proto__"; "model"; "status"])) →
  ResultsPage.results
    (ResultsPage.handleStreamEvent numberToString t2 e2
       (ResultsPage.handleStreamEvent numberToString t1 e1 st))
  = ResultsPage.results
      (ResultsPage.handleStreamEvent numberToString t1' e1
         (ResultsPage.handleStreamEvent numberToString t2' e2 st))
  ∧ ResultsPage.strays
      (ResultsPage.handleStreamEvent numberToString t2 e2
         (ResultsPage.handleStreamEvent numberToString t1 e1 st))
    = ResultsPage.strays
        (ResultsPage.handleStreamEvent numberToString t1' e1
           (ResultsPage.handleStreamEvent numberToString t2' e2 st)).
Proof.
  intros H1 H2 Hne Hp.
  cut (ResultsPage.resultsObject
         (ResultsPage.handleStreamEvent numberToString t2 e2
            (ResultsPage.handleStreamEvent numberToString t1 e1 st))
       = ResultsPage.resultsObject
           (ResultsPage.handleStreamEvent numberToString t1' e1
              (ResultsPage.handleStreamEvent numberToString t2' e2 st))).
  { intros Heq. split.
    - exact (f_equal ResultsPage.entries Heq).
    - exact (f_equal ResultsPage.partials Heq). }
  destruct (handle_results_shape numberToString e1)
    as [(k1 & f1 & g1 & Hk1 & Hf & _)|Hf];
    destruct (handle_results_shape numberToString e2)
      as [(k2 & f2 & g2 & Hk2 & Hg & _)|Hg];
    repeat (rewrite Hf || rewrite Hg); try done.
  rewrite H1 in Hk1. rewrite H2 in Hk2. simplify_eq.
  symmetry. apply updateResult_comm; [done|]. exact Hp.
Qed.

Lemma events_of_different_models_commute_witness :
  ResultsPage.results
    (ResultsPage.handleStreamEvent (λ _, "0") (Q2Qc 2)
       (StreamEvent.generation_complete "gemini-2.5-flash" true (Q2Qc 900))
       (ResultsPage.handleStreamEvent (λ _, "0") (Q2Qc 1)
          (StreamEvent.code_chunk "gemini-2.5-pro" "x = 1")
          (ResultsPage.initialState ["gemini-2.5-pro"; "gemini-2.5-flash"])))
  = ResultsPage.results
      (ResultsPage.handleStreamEvent (λ _, "0") (Q2Qc 4)
         (StreamEvent.code_chunk "gemini-2.5-pro" "x = 1")
         (ResultsPage.handleStreamEvent (λ _, "0") (Q2Qc 3)
            (StreamEvent.generation_complete "gemini-2.5-flash" true
               (Q2Qc 900))
            (ResultsPage.initialState
               ["gemini-2.5-pro"; "gemini-2.5-flash"]))).
Proof.
  refine (proj1 (events_of_different_models_commute (λ _, "0") (Q2Qc 1)
           (Q2Qc 2) (Q2Qc 4) (Q2Qc 3)
           (StreamEvent.code_chunk "gemini-2.5-pro" "x = 1")
           (StreamEvent.generation_complete "gemini-2.5-flash" true
              (Q2Qc 900))
           "gemini-2.5-pro" "gemini-2.5-flash"
           (ResultsPage.initialState ["gemini-2.5-pro"; "gemini-2.5-flash"])
           _ _ _ _)).
  - reflexivity.
  - reflexivity.
  - discriminate.
  - left. vm_compute. reflexivity.
Defined.

(** With the prototype replaced the order matters: the first update gives
    the object the ordinary prototype again, so an event for ["__proto__"]
    finds the pending entry only when it comes first. *)
Lemma replaced_prototype_order_matters :
  let st := ResultsPage.initialState ["gemini-2.5-pro"; "__proto__"] in
  let e1 := StreamEvent.generation_start "__proto__" in
  let e2 := StreamEvent.generation_start "gemini-2.5-pro" in
  ResultsPage.protoReplaced st = true
  ∧ ResultsPage.results
      (ResultsPage.handleStreamEvent (λ _, "0") (Q2Qc 0) e2
         (ResultsPage.handleStreamEvent (λ _, "0") (Q2Qc 0) e1 st))
      !! "__proto__"
    = Some (ResultsPage.withStatus (ResultsPage.pendingEntry "__proto__")
              ModelStatus.processing)
  ∧ ResultsPage.results
      (ResultsPage.handleStreamEvent (λ _, "0") (Q2Qc 0) e1
         (ResultsPage.handleStreamEvent (λ _, "0") (Q2Qc 0) e2 st))
      !! "__proto__"
    = None.
Proof. cbv zeta. split_and!; vm_compute; reflexivity. Qed.

(** ** Reading the event stream *)

Section Reader.
Import StreamReader.
Variable sep : ascii.

Lemma splitFrom_nonempty cur s : splitFrom sep cur s ≠ [].
Proof.
  revert cur. induction s as [|c s IH]; intros cur; cbn [splitFrom]; [done|].
  destruct (Ascii.eqb c sep); [done|apply IH].
Qed.

Lemma removelast_cons_nonempty {A} (x : A) (l : list A) :
  l ≠ [] → removelast (x :: l) = x :: removelast l.
Proof. by destruct l. Qed.

Lemma last_cons_nonempty {A} (x : A) (l : list A) :
  l ≠ [] → last (x :: l) = last l.
Proof. by destruct l. Qed.

Lemma removelast_app_nonempty {A} (l1 l2 : list A) :
  l2 ≠ [] → removelast (l1 ++ l2) = l1 ++ removelast l2.
Proof.
  intros Hne. induction l1 as [|x l1 IH]; [done|].
  cbn [app]. rewrite removelast_cons_nonempty, IH; [done|].
  by destruct l1, l2.
Qed.

Lemma last_app_nonempty {A} (l1 l2 : list A) :
  l2 ≠ [] → last (l1 ++ l2) = last l2.
Proof.
  intros Hne. induction l1 as [|x l1 IH]; [done|].
  cbn [app]. rewrite last_cons_nonempty; [done|]. by destruct l1, l2.
Qed.

(** Splitting a text given in two pieces: the complete pieces of the first,
    then the split of the second continuing the piece left open. *)
Lemma splitFrom_app cur s t :
  splitFrom sep cur (s +:+ t)
  = removelast (splitFrom sep cur s)
    ++ splitFrom sep (default "" (last (splitFrom sep cur s))) t.
Proof.
  revert cur. induction s as [|c s IH]; intros cur; [done|].
  change (String c s +:+ t) with (String c (s +:+ t)).
  cbn [splitFrom]. destruct (Ascii.eqb c sep).
  - rewrite removelast_cons_nonempty, last_cons_nonempty
      by apply splitFrom_nonempty.
    cbn [app]. by rewrite IH.
  - apply IH.
Qed.

Lemma freeOf_cons c s : freeOf sep (String c s) ↔ c ≠ sep ∧ freeOf sep s.
Proof.
  unfold freeOf. cbn [list_ascii_of_string]. rewrite not_elem_of_cons.
  split; intros [? ?]; split; congruence.
Qed.

Lemma freeOf_snoc cur c :
  freeOf sep cur → c ≠ sep → freeOf sep (cur +:+ String c "").
Proof.
  intros Hcur Hc. induction cur as [|x cur IH].
  - apply freeOf_cons. split; [done|]. unfold freeOf. cbn. apply not_elem_of_nil.
  - change (String x cur +:+ String c "") with (String x (cur +:+ String c "")).
    apply freeOf_cons in Hcur as [Hx Hcur]. apply freeOf_cons. auto.
Qed.

Lemma splitFrom_free cur s :
  freeOf sep s → splitFrom sep cur s = [cur +:+ s].
Proof.
  revert cur. induction s as [|c s IH]; intros cur Hs.
  - cbn. by rewrite append_empty_r.
  - apply freeOf_cons in Hs as [Hc Hs]. cbn [splitFrom].
    rewrite (proj2 (Ascii.eqb_neq c sep)) by done. rewrite IH by done.
    by rewrite append_assoc.
Qed.

Lemma splitFrom_last_free cur s :
  freeOf sep cur → freeOf sep (default "" (last (splitFrom sep cur s))).
Proof.
  revert cur. induction s as [|c s IH]; intros cur Hcur; [done|].
  cbn [splitFrom]. destruct (Ascii.eqb_spec c sep) as [->|Hc].
  - rewrite last_cons_nonempty by apply splitFrom_nonempty.
    apply IH. unfold freeOf. cbn. apply not_elem_of_nil.
  - apply IH. by apply freeOf_snoc.
Qed.

Lemma split_from_buffer buffer text :
  freeOf sep buffer →
  split sep (buffer +:+ text) = splitFrom sep buffer text.
Proof.
  intros Hb. unfold split. rewrite splitFrom_app.
  by rewrite (splitFrom_free "" buffer Hb).
Qed.

End Reader.

Section ReadLoop.
Import StreamReader.

Lemma readLoop_from buffer (chunks : list string) :
  freeOf newline buffer →
  readLoop buffer chunks
  = (omap dataOf (removelast (splitFrom newline buffer (joinChunks chunks))),
     default "" (last (splitFrom newline buffer (joinChunks chunks)))).
Proof.
  revert buffer. induction chunks as [|text chunks IH]; intros buffer Hb.
  - done.
  - cbn [readLoop joinChunks foldr]. unfold readChunk.
    rewrite (split_from_buffer newline buffer text Hb).
    rewrite IH by (by apply splitFrom_last_free).
    fold (joinChunks chunks). rewrite splitFrom_app.
    rewrite removelast_app_nonempty, last_app_nonempty
      by apply splitFrom_nonempty.
    by rewrite omap_app.
Qed.

Lemma prefix_append (p s : string) :
  String.prefix p s = true ↔ ∃ x, s = p +:+ x.
Proof.
  revert s. induction p as [|a p IH]; intros s.
  - destruct s; (split; [intros _; eexists; reflexivity|reflexivity]).
  - destruct s as [|b s]; cbn [String.prefix];
      [split; [done|intros [x Hx]; discriminate Hx]|].
    destruct (ascii_dec a b) as [->|Hab].
    + rewrite IH. split; intros [x Hx]; exists x.
      * by rewrite Hx.
      * change (String b p +:+ x) with (String b (p +:+ x)) in Hx.
        by injection Hx.
    + split; [done|]. intros [x Hx].
      change (String a p +:+ x) with (String a (p +:+ x)) in Hx.
      injection Hx as Heq _. by destruct Hab.
Qed.

Lemma slice_append (p x : string) : slice (String.length p) (p +:+ x) = x.
Proof. induction p as [|a p IH]; [by destruct x|exact IH]. Qed.

Lemma joinChunks_app (a b : list string) :
  joinChunks (a ++ b) = joinChunks a +:+ joinChunks b.
Proof.
  induction a as [|x a IH]; [done|].
  cbn [app joinChunks foldr]. fold (joinChunks (a ++ b)) (joinChunks a).
  by rewrite IH, append_assoc.
Qed.

Lemma freeOf_empty sep : freeOf sep "".
Proof. unfold freeOf. cbn. apply not_elem_of_nil. Qed.

End ReadLoop.

(** X14. The read loop reassembles the stream: however the response body is
    cut into chunks, the payloads handed to [JSON.parse] are those of the
    newline-terminated lines of the whole text that start with ["data: "], in
    order, and the buffer left over is the text after the last newline.  Two
    ways of chunking the same text therefore dispatch the same events. *)
Theorem stream_reassembly (chunks : list string) :
  StreamReader.readLoop "" chunks
  = (omap StreamReader.dataOf
       (removelast (StreamReader.split StreamReader.newline
                      (joinChunks chunks))),
     default "" (last (StreamReader.split StreamReader.newline
                         (joinChunks chunks))))
  ∧ ∀ chunks' : list string,
      joinChunks chunks' = joinChunks chunks →
      StreamReader.readLoop "" chunks' = StreamReader.readLoop "" chunks
      ∧ ∀ parseEvent,
          StreamReader.dispatched parseEvent chunks'
          = StreamReader.dispatched parseEvent chunks.
Proof.
  split.
  - apply readLoop_from, freeOf_empty.
  - intros chunks' Hjoin.
    assert (Heq : StreamReader.readLoop "" chunks'
                  = StreamReader.readLoop "" chunks).
    { rewrite !readLoop_from by apply freeOf_empty. by rewrite Hjoin. }
    split; [done|]. intros parseEvent. unfold StreamReader.dispatched.
    by rewrite Heq.
Qed.

Lemma stream_reassembly_witness :
  StreamReader.readLoop ""
    [ "data: {}" +:+ String StreamReader.newline "da";
      "ta: []" +:+ String StreamReader.newline "" ]
  = StreamReader.readLoop ""
      [ "data: {}" +:+ String StreamReader.newline
          ("data: []" +:+ String StreamReader.newline "") ].
Proof.
  exact (proj1 (proj2 (stream_reassembly
    [ "data: {}" +:+ String StreamReader.newline
        ("data: []" +:+ String StreamReader.newline "") ])
    [ "data: {}" +:+ String StreamReader.newline "da";
      "ta: []" +:+ String StreamReader.newline "" ]
    eq_refl)).
Defined.

(** X15. A line is handed on exactly when it starts with ["data: "], and what
    is handed on is the rest of the line after these six characters. *)
Theorem dataOf_payload (line payload : string) :
  StreamReader.dataOf line = Some payload ↔ line = "data: " +:+ payload.
Proof.
  unfold StreamReader.dataOf. split.
  - destruct (String.prefix "data: " line) eqn:Hp; [|done].
    apply prefix_append in Hp as [x ->]. intros [= <-]. reflexivity.
  - intros ->. rewrite (proj2 (prefix_append "data: " _)) by (by eexists).
    pose proof (slice_append "data: " payload) as Hs.
    cbn [String.length] in Hs. by rewrite Hs.
Qed.

(** X16. Text that is not yet terminated by a newline is never dispatched: a
    further chunk without a newline dispatches nothing new and is only added
    to the buffer, so an event whose line is still open when the stream ends
    is dropped. *)
Theorem unterminated_tail_not_dispatched (chunks : list string) (tail : string) :
  freeOf StreamReader.newline tail →
  (StreamReader.readLoop "" (chunks ++ [tail])).1
  = (StreamReader.readLoop "" chunks).1
  ∧ (StreamReader.readLoop "" (chunks ++ [tail])).2
    = (StreamReader.readLoop "" chunks).2 +:+ tail.
Proof.
  intros Htail. rewrite !readLoop_from by apply freeOf_empty.
  cbn [fst snd]. rewrite joinChunks_app.
  cbn [joinChunks foldr]. rewrite append_empty_r, splitFrom_app.
  rewrite (splitFrom_free _ _ tail Htail).
  rewrite removelast_app_nonempty, last_app_nonempty by done.
  cbn [removelast last default]. by rewrite app_nil_r.
Qed.

Lemma unterminated_tail_not_dispatched_witness :
  (StreamReader.readLoop ""
     [ "data: {}" +:+ String StreamReader.newline ""; "data: [1" ]).1
  = ["{}"].
Proof.
  refine (eq_trans (proj1 (unterminated_tail_not_dispatched
    [ "data: {}" +:+ String StreamReader.newline "" ] "data: [1" _)) eq_refl).
  apply (bool_decide_unpack _). vm_compute. exact I.
Defined.

(** ** Entries of the requested models, from start to card *)

(** X17. The page starts with one pending, empty entry per requested model
    other than ["__proto__"] (a model requested twice gets one entry), no
    other own property, and none for any other model; requesting
    ["__proto__"] makes no own property but replaces the prototype of the
    results object.  Either way [results[model]] finds the pending entry of
    every requested model. *)
Theorem initial_results_lookup (models : list Model) (m : Model) :
  ResultsPage.entries (ResultsPage.initialResults models) !! m
  = (if decide (m ∈ models ∧ m ≠ "__proto__")
     then Some (ResultsPage.pendingEntry m) else None)
  ∧ dom (ResultsPage.entries (ResultsPage.initialResults models))
    = list_to_set (filter (λ k, k ≠ "__proto__") models)
  ∧ ResultsPage.partials (ResultsPage.initialResults models) = ∅
  ∧ (ResultsPage.prototypeReplaced (ResultsPage.initialResults models) = true
     ↔ "__proto__" ∈ models)
  ∧ (m ∈ models →
     ResultsPage.currentResult (ResultsPage.initialResults models) m
     = Some (ResultsPage.FoundResult (ResultsPage.pendingEntry m))).
Proof.
  destruct (initialResults_shape models) as (He & Hp & Hr).
  split_and!; [apply He| |done|done|apply initialResults_currentResult].
  apply set_eq. intros k. rewrite elem_of_dom, He.
  rewrite elem_of_list_to_set, list_elem_of_filter. case_decide as Hk.
  - split; [intros _; tauto|intros _; by eexists].
  - split; [by intros [? ?]|intros [? ?]; tauto].
Qed.


(** A requested ["__proto__"] loses its pending entry as soon as an event
    for another model has been handled: its own events then build a partial
    entry on [Object.prototype]. *)
Lemma proto_model_entry_lost :
  let final :=
    ResultsPage.handleStreamEvents (λ _, "0")
      [ (Q2Qc 0, StreamEvent.generation_start "gemini-2.5-pro");
        (Q2Qc 0, StreamEvent.generation_start "__proto__") ]
      (ResultsPage.initialState ["gemini-2.5-pro"; "__proto__"]) in
  ResultsPage.results final !! "__proto__" = None
  ∧ ResultsPage.strays final !! "__proto__"
    = Some (ResultsPage.partialWithStatus
              (ResultsPage.partialOf (inl "")) ModelStatus.processing).
Proof. cbv zeta. split; vm_compute; reflexivity. Qed.

(** X19. A successful run of a requested model (start, any number of chunks,
    successful completion, evaluation result) leaves its entry complete, with
    the chunks concatenated as code, the reported time, score and metrics, the
    derived pros and cons and no error; its card then shows the cleaned code,
    unless that is empty, followed by the evaluation. *)
Theorem successful_run_entry
    (numberToString : number → string) (cleanCodeFences : string → string)
    (models : list Model) (m : Model)
    (tchunks : list (number * string)) (t0 t1 t2 duration overall : number)
    (ms : EvaluationMetrics) (ns : Notes) :
  m ∈ models →
  let events :=
    [(t0, StreamEvent.generation_start m)]
    ++ ((λ tc, (tc.1, StreamEvent.code_chunk m tc.2)) <$> tchunks)
    ++ [(t1, StreamEvent.generation_complete m true duration);
        (t2, StreamEvent.evaluation_result m overall ms ns)] in
  let entry :=
    {| ModelResult.model := m;
       ModelResult.status := ModelStatus.complete;
       ModelResult.code := joinChunks (tchunks.*2);
       ModelResult.executionTime := Some duration;
       ModelResult.overallScore := Some overall;
       ModelResult.metrics := Some ms;
       ModelResult.pros :=
         Some (ResultsPage.generateProsAndCons numberToString ms).1;
       ModelResult.cons :=
         Some (ResultsPage.generateProsAndCons numberToString ms).2;
       ModelResult.error := None |} in
  ResultsPage.results
    (ResultsPage.handleStreamEvents numberToString events
       (ResultsPage.initialState models)) !! m
  = Some entry
  ∧ ModelOutputCard.panels cleanCodeFences entry
    = (if ModelOutputCard.nonEmpty
            (ModelOutputCard.cleanCode cleanCodeFences entry)
       then [ModelOutputCard.CodeBox
               (ModelOutputCard.cleanCode cleanCodeFences entry)]
       else [])
      ++ [ModelOutputCard.Evaluation
            (ResultsPage.generateProsAndCons numberToString ms).1
            (ResultsPage.generateProsAndCons numberToString ms).2].
Proof.
  intros Hin events entry. split.
  - subst events. unfold ResultsPage.handleStreamEvents.
    rewrite !foldl_app. cbn [foldl fst snd].
    set (st0 := ResultsPage.initialState models).
    set (st1 := ResultsPage.handleStreamEvent numberToString t0
                  (StreamEvent.generation_start m) st0).
    assert (H1 : ResultsPage.results st1 !! m
                 = Some (ResultsPage.withStatus (ResultsPage.pendingEntry m)
                           ModelStatus.processing)).
    { subst st1 st0.
      cbn [ResultsPage.handleStreamEvent ResultsPage.setResults
           ResultsPage.results].
      rewrite resultsObject_initialState.
      apply (updateResult_found m
               (λ cur, ResultsPage.withStatus cur ModelStatus.processing)
               _ _ (ResultsPage.pendingEntry m)).
      by apply initialResults_currentResult. }
    pose proof (code_chunks_entry numberToString m tchunks st1 _ H1) as H2.
    unfold ResultsPage.handleStreamEvents in H2.
    set (st2 := foldl _ st1 _) in *.
    set (st3 := ResultsPage.handleStreamEvent numberToString t1
                  (StreamEvent.generation_complete m true duration) st2).
    pose proof (updateResult_lookup m
                  (λ cur, ResultsPage.withCompletion cur ModelStatus.complete
                            duration None)
                  (λ cur, ResultsPage.partialWithCompletion cur
                            ModelStatus.complete duration None)
                  st2 _ H2) as H3.
    change (ResultsPage.entries _) with (ResultsPage.results st3) in H3.
    cbn [ResultsPage.handleStreamEvent ResultsPage.setResults
         ResultsPage.results].
    rewrite (updateResult_lookup m _ _ st3 _ H3).
    subst entry. cbn.
    by destruct (ResultsPage.generateProsAndCons numberToString ms).
  - subst entry. unfold ModelOutputCard.panels, ModelOutputCard.showError,
      ModelOutputCard.showCode, ModelOutputCard.showEvaluation.
    cbn [ModelResult.status ModelResult.pros ModelResult.cons
         ModelResult.overallScore ModelResult.error ModelOutputCard.isStatus
         andb app default].
    rewrite !bool_decide_eq_true_2 by (by eexists). cbn [andb].
    by destruct (ModelOutputCard.nonEmpty _).
Qed.

Lemma successful_run_entry_witness :
  ModelResult.code <$>
    ResultsPage.results
      (ResultsPage.handleStreamEvents (λ _, "9")
         [ (Q2Qc 1, StreamEvent.generation_start "gemini-2.5-pro");
           (Q2Qc 2, StreamEvent.code_chunk "gemini-2.5-pro" "def f():");
           (Q2Qc 3, StreamEvent.code_chunk "gemini-2.5-pro" " pass");
           (Q2Qc 4, StreamEvent.generation_complete "gemini-2.5-pro" true
                      (Q2Qc 812));
           (Q2Qc 5, StreamEvent.evaluation_result "gemini-2.5-pro" (Q2Qc 9) []
                      {| notes_pros := []; notes_cons := [] |}) ]
         (ResultsPage.initialState ["gemini-2.5-pro"])) !! "gemini-2.5-pro"
  = Some "def f(): pass".
Proof.
  assert (Hin : "gemini-2.5-pro" ∈ ["gemini-2.5-pro"]).
  { apply (bool_decide_unpack _). vm_compute. exact I. }
  exact (f_equal (fmap ModelResult.code)
           (proj1 (successful_run_entry (λ _, "9") (λ c, c)
                     ["gemini-2.5-pro"] "gemini-2.5-pro"
                     [(Q2Qc 2, "def f():"); (Q2Qc 3, " pass")]
                     (Q2Qc 1) (Q2Qc 4) (Q2Qc 5) (Q2Qc 812) (Q2Qc 9) []
                     {| notes_pros := []; notes_cons := [] |} Hin))).
Defined.

(** X20. The card of a failed model shows the failure and nothing of the
    code: after a [generation_complete] event without success it shows only
    the box with "Generation failed", whatever had been streamed; after an
    [error] event for the model it shows only the box with the event's
    message, and nothing at all when that message is empty. *)
Theorem failed_model_card
    (numberToString : number → string) (cleanCodeFences : string → string)
    (now : number) (st : ResultsPage.State) (m : Model) (r : ModelResult.t)
    (duration : number) (msg : string) :
  ResultsPage.results st !! m = Some r →
  (∃ r',
     ResultsPage.results
       (ResultsPage.handleStreamEvent numberToString now
          (StreamEvent.generation_complete m false duration) st) !! m
     = Some r'
     ∧ ModelOutputCard.panels cleanCodeFences r'
       = [ModelOutputCard.ErrorBox "Generation failed"])
  ∧ (m ≠ "" →
     ∃ r',
       ResultsPage.results
         (ResultsPage.handleStreamEvent numberToString now
            (StreamEvent.error msg (Some m)) st) !! m
       = Some r'
       ∧ ModelOutputCard.panels cleanCodeFences r'
         = if ModelOutputCard.nonEmpty msg
           then [ModelOutputCard.ErrorBox msg] else []).
Proof.
  intros Hr. split.
  - cbn [ResultsPage.handleStreamEvent ResultsPage.setResults
         ResultsPage.results].
    rewrite (updateResult_lookup _ _ _ _ _ Hr). eexists. split; [reflexivity|].
    reflexivity.
  - intros Hm.
    cbn [ResultsPage.handleStreamEvent ResultsPage.truthy].
    rewrite decide_False by done.
    cbn [ResultsPage.setWarnings ResultsPage.setResults ResultsPage.results].
    rewrite (updateResult_lookup _ _ _ _ _ Hr). eexists. split; [reflexivity|].
    unfold ModelOutputCard.panels, ModelOutputCard.showError,
      ModelOutputCard.showCode, ModelOutputCard.showEvaluation.
    cbn [ResultsPage.withError ModelResult.status ModelResult.error
         ModelOutputCard.isStatus andb app default].
    by destruct (ModelOutputCard.nonEmpty msg).
Qed.

Lemma failed_model_card_witness :
  ∃ r',
    ResultsPage.results
      (ResultsPage.handleStreamEvent (λ _, "0") (Q2Qc 0)
         (StreamEvent.generation_complete "gemini-2.5-pro" false (Q2Qc 30000))
         (ResultsPage.initialState ["gemini-2.5-pro"])) !! "gemini-2.5-pro"
    = Some r'
    ∧ ModelOutputCard.panels (λ c, c) r'
      = [ModelOutputCard.ErrorBox "Generation failed"].
Proof.
  assert (Hr : ResultsPage.results
                 (ResultsPage.initialState ["gemini-2.5-pro"])
                 !! "gemini-2.5-pro"
               = Some (ResultsPage.pendingEntry "gemini-2.5-pro"))
    by (vm_compute; reflexivity).
  exact (proj1 (failed_model_card (λ _, "0") (λ c, c) (Q2Qc 0) _
                  "gemini-2.5-pro" _ (Q2Qc 30000) "" Hr)).
Defined.

(** ** Badges and labels *)

(** X21. The badges of the [MultiSelect] are the options whose value is
    selected, in the order of the option table: they depend on which values
    are selected, not on the order (or multiplicity) in which they were
    selected. *)
Theorem selectedItems_table_order
    (options : list Consts.Option) (selectedValues : list string) :
  (∀ o, o ∈ MultiSelect.selectedItems options selectedValues
        ↔ o ∈ options ∧ Consts.value o ∈ selectedValues)
  ∧ sublist (MultiSelect.selectedItems options selectedValues) options
  ∧ ∀ selectedValues' : list string,
      (∀ v, v ∈ selectedValues ↔ v ∈ selectedValues') →
      MultiSelect.selectedItems options selectedValues'
      = MultiSelect.selectedItems options selectedValues.
Proof.
  unfold MultiSelect.selectedItems. split_and!.
  - intros o. rewrite list_elem_of_filter. split; intros [? ?]; done.
  - apply sublist_filter.
  - intros sel' Hsame. apply list_filter_iff. intros o. symmetry. apply Hsame.
Qed.

(** X22. The title of a card is the label of the first option of the table
    with the model's value, and the model identifier itself when the table has
    no such option or that option's label is empty. *)
Theorem modelLabel_lookup (models : list Consts.Option) (r : ModelResult.t) :
  (ModelResult.model r ∉ Consts.value <$> models →
   ModelOutputCard.modelLabel models r = ModelResult.model r)
  ∧ ∀ before o after,
      models = before ++ o :: after →
      (ModelResult.model r ∉ Consts.value <$> before) →
      Consts.value o = ModelResult.model r →
      ModelOutputCard.modelLabel models r
      = if ModelOutputCard.nonEmpty (Consts.label o)
        then Consts.label o else ModelResult.model r.
Proof.
  unfold ModelOutputCard.modelLabel. split.
  - intros Hnot. induction models as [|x models IH]; [done|].
    cbn [fmap list_fmap] in Hnot. apply not_elem_of_cons in Hnot as [Hx Hnot].
    cbn [List.find]. rewrite bool_decide_eq_false_2 by done. by apply IH.
  - intros before o after -> Hbefore Ho.
    induction before as [|x before IH].
    + cbn [app List.find]. by rewrite bool_decide_eq_true_2.
    + cbn [fmap list_fmap] in Hbefore.
      apply not_elem_of_cons in Hbefore as [Hx Hbefore].
      cbn [app List.find]. rewrite bool_decide_eq_false_2 by done.
      by apply IH.
Qed.
